(** * Fragment registry and import planner of the near-operation-file preset

    A shallow embedding of
    [packages/presets/near-operation-file/src/fragment-resolver.ts]
    together with the properties of its registry builder
    ([buildFragmentRegistry]) and of its per-file planner
    ([resolveFragments]).

    Conventions of the embedding.
    - A JavaScript object used as a dictionary is an association list in
      insertion order ([JsObject]); assigning to an existing key replaces the
      value in place, assigning to a new key appends it.  This is what the
      source's objects do for every key that is neither a member of
      [Object.prototype] (read as an inherited value when the object lacks
      it) nor an array index (enumerated ahead of the other keys).  The
      theorems that depend on a read of a possibly missing key or on the
      order of enumeration carry the hypotheses [plainFragmentNames],
      [plainPlan] and [noIndexPaths], which keep the keys in that domain.
    - A JavaScript [Set] of strings is the list of its members in insertion
      order ([JsSet]).
    - [throw new Error(message)] is the outcome [Throw message]; a normal
      completion is [Return value].
    - Collaborators that live outside the file (schema, naming, printing,
      path derivation, statement rendering, usage resolution) are parameters.
      Module [Sample] instantiates them for the concrete scenarios. *)

From Stdlib Require Import String Ascii List Bool Arith Lia Permutation.
Import ListNotations.
Local Open Scope string_scope.
Local Open Scope list_scope.

Set Implicit Arguments.
Set Warnings "-register-all".

(** ** Outcomes of fallible code *)

Inductive result (A : Type) : Type :=
| Return (value : A)
| Throw (message : string).

Arguments Return {A} value.
Arguments Throw {A} message.

Definition bind {A B : Type} (r : result A) (k : A -> result B) : result B :=
  match r with
  | Return a => k a
  | Throw message => Throw message
  end.

Notation "x <- c1 ;; c2" := (bind c1 (fun x => c2))
  (at level 61, c1 at next level, right associativity).

(** ** JavaScript containers *)

Module JsObject.
Section Obj.
Variable V : Type.

Definition t := list (string * V).

Definition empty : t := [].

(** [o[k]], for a key [k] that the object holds or that is not a member of
    [Object.prototype]. *)
Fixpoint get (k : string) (o : t) : option V :=
  match o with
  | [] => None
  | (k', v) :: o' => if String.eqb k k' then Some v else get k o'
  end.

(** [o[k] = v] *)
Fixpoint set (k : string) (v : V) (o : t) : t :=
  match o with
  | [] => [(k, v)]
  | (k', v') :: o' =>
      if String.eqb k k' then (k, v) :: o' else (k', v') :: set k v o'
  end.

(** [Object.keys(o)] *)
Definition keys (o : t) : list string := map fst o.

(** [Object.entries(o)], for keys that are not array indices. *)
Definition entries (o : t) : list (string * V) := o.
End Obj.

Arguments empty {V}.
End JsObject.

Module JsSet.
Definition t := list string.

Definition has (s : t) (x : string) : bool := existsb (String.eqb x) s.

(** [s.add(x)] *)
Definition add (s : t) (x : string) : t := if has s x then s else s ++ [x].

(** [new Set(l)] *)
Definition ofList (l : list string) : t := fold_left add l [].

(** [[...s]] *)
Definition toList (s : t) : list string := s.
End JsSet.

(** ** Strings *)

Definition quote : string := String (ascii_of_nat 34) EmptyString.

Definition toLowerAscii (c : ascii) : ascii :=
  let n := nat_of_ascii c in
  if (Nat.leb 65 n && Nat.leb n 90)%bool then ascii_of_nat (n + 32) else c.

(** [s.toLowerCase()], on ASCII letters. *)
Fixpoint toLowerCase (s : string) : string :=
  match s with
  | EmptyString => EmptyString
  | String c s' => String (toLowerAscii c) (toLowerCase s')
  end.

(** ** Documents

    The part of the GraphQL AST that the file reads: a definition's kind, a
    fragment's name and type condition, and the selections that carry
    fragment spreads. *)

Inductive SelectionNode : Type :=
| Field (fieldName : string) (selectionSet : list SelectionNode)
| FragmentSpread (spreadName : string)
| InlineFragment (onTypeName : option string) (selectionSet : list SelectionNode).

Record FragmentDefinitionNode : Type := {
  name_value : string;                (* fragment.name.value *)
  typeCondition_name_value : string;  (* fragment.typeCondition.name.value *)
  fragmentSelectionSet : list SelectionNode
}.

Inductive DefinitionNode : Type :=
| OperationDefinition (operation : string) (operationName : option string)
    (selectionSet : list SelectionNode)
| FragmentDefinition (fragment : FragmentDefinitionNode)
| OtherDefinition.

Record DocumentNode : Type := { definitions : list DefinitionNode }.

(** [Types.DocumentFile] *)
Record DocumentFile : Type := {
  document : DocumentNode;
  location : string
}.

(** ** Schema *)

Record GraphQLObjectType : Type := { objectTypeName : string }.

Record GraphQLSchema (NamedType : Type) : Type := {
  getType : string -> option NamedType
}.

(** ** Configuration *)

(** [DocumentMode] of visitor-plugin-common.  The four members the file names,
    and [otherDocumentMode] for every member it does not name. *)
Inductive DocumentMode : Type :=
| graphQLTag
| documentNode
| documentNodeImportFragments
| external
| otherDocumentMode.

(** The fields of the raw preset configuration that the file reads. *)
Record RawConfig : Type := {
  documentMode : option DocumentMode;
  dedupeOperationSuffix : option bool;
  omitOperationSuffix : option bool;
  fragmentVariablePrefix : option string;
  fragmentVariableSuffix : option string
}.

Record NearOperationFileParsedConfig : Type := {
  parsedDedupeOperationSuffix : bool;
  parsedOmitOperationSuffix : bool;
  parsedFragmentVariablePrefix : string;
  parsedFragmentVariableSuffix : string
}.

(** [getConfigValue(value, defaultValue)] *)
Definition getConfigValue {A : Type} (value : option A) (defaultValue : A) : A :=
  match value with
  | Some v => v
  | None => defaultValue
  end.

(** A configured plugin is an object keyed by the plugin's name; the file
    reads its first key only. *)
Record ConfiguredPlugin : Type := { firstKey : string }.

Record ConvertOptions : Type := {
  useTypesPrefix : bool;
  suffix : string
}.

(** The three naming methods of [BaseVisitor] that the file calls. *)
Record BaseVisitor : Type := {
  getFragmentVariableName : string -> string;
  getFragmentSuffix : string -> string;
  convertName : string -> ConvertOptions -> string
}.

Record ImportSource : Type := {
  path : string;
  names : list string
}.

(** The argument of [generateImportStatement]. *)
Record ImportStatementArgs : Type := {
  argBaseOutputDir : string;
  relativeOutputPath : string;
  importSource : ImportSource
}.

(** [DocumentImportResolverOptions] *)
Record DocumentImportResolverOptions : Type := {
  generateFilePath : string -> string;
  generateImportStatement : ImportStatementArgs -> string
}.

(** [Types.PresetFnArgs] *)
Record PresetFnArgs : Type := {
  documents : list DocumentFile;
  config : RawConfig;
  plugins : list ConfiguredPlugin;
  baseOutputDir : string
}.

(** ** The registry *)

Record FragmentRegistryEntry : Type := {
  filePath : string;
  importNames : list string;
  onType : string;
  node : FragmentDefinitionNode
}.

Definition FragmentRegistry : Type := JsObject.t FragmentRegistryEntry.

Definition DOC_VAR_PLUGINS : list string :=
  [ "typescript-react-apollo";
    "typescript-apollo-angular";
    "typescript-document-nodes";
    "typescript-generic-sdk";
    "typescript-graphql-request";
    "typescript-oclif";
    "typescript-stencil-apollo";
    "typescript-urql";
    "typescript-vue-apollo" ].

(** [pluginKey === t || `@graphql-codegen/${t}` === pluginKey] *)
Definition matchesDocVarPlugin (pluginKey t : string) : bool :=
  String.eqb pluginKey t || String.eqb ("@graphql-codegen/" ++ t) pluginKey.

(** The names of the table are non-empty strings, so the element that
    [find] returns is truthy exactly when one is found. *)
Fixpoint isUsingDocVarPlugin (plugins : list ConfiguredPlugin) : bool :=
  match plugins with
  | [] => false
  | pluginRecord :: rest =>
      let pluginKey := toLowerCase (firstKey pluginRecord) in
      match find (matchesDocVarPlugin pluginKey) DOC_VAR_PLUGINS with
      | Some _ => true
      | None => isUsingDocVarPlugin rest
      end
  end.

Definition isDocumentNodeOrExternal (mode : DocumentMode) : bool :=
  match mode with
  | documentNode | external | documentNodeImportFragments => true
  | _ => false
  end.

Definition getAllFragmentSubTypes (baseVisitor : BaseVisitor) (config : RawConfig)
    (plugins : list ConfiguredPlugin) (possbileTypes : list string) (name : string)
    : list string :=
  let subTypes : list string := [] in
  let hasDocVarPlugin := isUsingDocVarPlugin plugins in
  let documentMode := getConfigValue (documentMode config) graphQLTag in
  let subTypes :=
    if hasDocVarPlugin then
      if negb (isDocumentNodeOrExternal documentMode)
      then subTypes ++ [getFragmentVariableName baseVisitor name]
      else subTypes
    else subTypes in
  let fragmentSuffix := getFragmentSuffix baseVisitor name in
  if Nat.eqb (length possbileTypes) 1 then
    subTypes ++ [convertName baseVisitor name
                   {| useTypesPrefix := true; suffix := fragmentSuffix |}]
  else if negb (Nat.eqb (length possbileTypes) 0) then
    fold_left
      (fun subTypes typeName =>
         subTypes ++ [convertName baseVisitor name
                        {| useTypesPrefix := true;
                           suffix := "_" ++ typeName ++ "_" ++ fragmentSuffix |}])
      possbileTypes subTypes
  else subTypes.

Definition unknownTypeMessage (fragment : FragmentDefinitionNode) : string :=
  "Fragment " ++ quote ++ name_value fragment ++ quote
  ++ " is set on non-existing type "
  ++ quote ++ typeCondition_name_value fragment ++ quote ++ "!".

Definition duplicateFragmentsMessage (duplicateFragmentNames : list string) : string :=
  "Multiple fragments with the name(s) " ++ quote
  ++ String.concat ", " duplicateFragmentNames ++ quote ++ " were found.".

(** [definitions.filter((d) => d.kind === Kind.FRAGMENT_DEFINITION)] *)
Fixpoint fragmentDefinitions (defs : list DefinitionNode) : list FragmentDefinitionNode :=
  match defs with
  | [] => []
  | FragmentDefinition fragment :: rest => fragment :: fragmentDefinitions rest
  | _ :: rest => fragmentDefinitions rest
  end.

(** The two variables the scan mutates: the accumulator of [reduce] and the
    list of conflicting names. *)
Record BuildState : Type := {
  prev : FragmentRegistry;
  duplicateFragmentNames : list string
}.

Section Builder.
Variable GraphQLNamedType : Type.
Variable getPossibleTypes :
  GraphQLSchema GraphQLNamedType -> GraphQLNamedType -> list GraphQLObjectType.
Variable print : FragmentDefinitionNode -> string.
Variable newBaseVisitor : RawConfig -> NearOperationFileParsedConfig -> BaseVisitor.

Variable collectorOptions : DocumentImportResolverOptions.
Variable presetOptions : PresetFnArgs.
Variable schemaObject : GraphQLSchema GraphQLNamedType.

(** [new BaseVisitor(config, {...})]; the [scalars] field of the second
    argument plays no part in the three naming methods and is left out. *)
Definition baseVisitor : BaseVisitor :=
  let config := config presetOptions in
  newBaseVisitor config
    {| parsedDedupeOperationSuffix := getConfigValue (dedupeOperationSuffix config) false;
       parsedOmitOperationSuffix := getConfigValue (omitOperationSuffix config) false;
       parsedFragmentVariablePrefix :=
         getConfigValue (fragmentVariablePrefix config) EmptyString;
       parsedFragmentVariableSuffix :=
         getConfigValue (fragmentVariableSuffix config) "FragmentDoc" |}.

(** The registry entry written for [fragment] of [documentRecord] once its
    type condition resolved to [schemaType]. *)
Definition registryEntry (documentRecord : DocumentFile) (schemaType : GraphQLNamedType)
    (fragment : FragmentDefinitionNode) : FragmentRegistryEntry :=
  let possibleTypes := getPossibleTypes schemaObject schemaType in
  let filePath := generateFilePath collectorOptions (location documentRecord) in
  let importNames :=
    getAllFragmentSubTypes baseVisitor (config presetOptions) (plugins presetOptions)
      (map objectTypeName possibleTypes) (name_value fragment) in
  {| filePath := filePath;
     importNames := importNames;
     onType := typeCondition_name_value fragment;
     node := fragment |}.

(** [prev[name] && print(fragment) !== print(prev[name].node)] *)
Definition isConflict (prev : FragmentRegistry) (fragment : FragmentDefinitionNode) : bool :=
  match JsObject.get (name_value fragment) prev with
  | Some existing => negb (String.eqb (print fragment) (print (node existing)))
  | None => false
  end.

(** The body of [for (const fragment of fragments)]. *)
Definition processFragment (documentRecord : DocumentFile) (st : BuildState)
    (fragment : FragmentDefinitionNode) : result BuildState :=
  match getType schemaObject (typeCondition_name_value fragment) with
  | None => Throw (unknownTypeMessage fragment)
  | Some schemaType =>
      let entry := registryEntry documentRecord schemaType fragment in
      let duplicateFragmentNames :=
        if isConflict (prev st) fragment
        then duplicateFragmentNames st ++ [name_value fragment]
        else duplicateFragmentNames st in
      Return {| prev := JsObject.set (name_value fragment) entry (prev st);
                duplicateFragmentNames := duplicateFragmentNames |}
  end.

Fixpoint forEachFragment (documentRecord : DocumentFile)
    (fragments : list FragmentDefinitionNode) (st : BuildState) : result BuildState :=
  match fragments with
  | [] => Return st
  | fragment :: rest =>
      st' <- processFragment documentRecord st fragment ;;
      forEachFragment documentRecord rest st'
  end.

(** [documents.reduce((prev, documentRecord) => ..., {})] *)
Fixpoint reduceDocuments (documents : list DocumentFile) (st : BuildState)
    : result BuildState :=
  match documents with
  | [] => Return st
  | documentRecord :: rest =>
      let fragments := fragmentDefinitions (definitions (document documentRecord)) in
      st' <- forEachFragment documentRecord fragments st ;;
      reduceDocuments rest st'
  end.

Definition buildFragmentRegistry : result FragmentRegistry :=
  st <- reduceDocuments (documents presetOptions)
          {| prev := JsObject.empty; duplicateFragmentNames := [] |} ;;
  if negb (Nat.eqb (length (duplicateFragmentNames st)) 0)
  then Throw (duplicateFragmentsMessage (duplicateFragmentNames st))
  else Return (prev st).
End Builder.

(** ** The planner *)

(** [LoadedFragment<{ level: number }>] *)
Record LoadedFragment : Type := {
  level : nat;
  isExternal : bool;
  name : string;
  loadedOnType : string;
  loadedNode : FragmentDefinitionNode
}.

(** What [resolveFragments] returns. *)
Record ResolvedFragments : Type := {
  externalFragments : list LoadedFragment;
  fragmentImportStatements : list string
}.

(** The two variables the planner's loop mutates. *)
Record PlanState : Type := {
  collectedFragments : list LoadedFragment;
  fragmentFileImports : JsObject.t JsSet.t
}.

Section Planner.
(** [extractExternalFragmentsInUse] of [./utils]: the entries of the object
    it returns, fragment name and level, in the order of [Object.keys]. *)
Variable extractExternalFragmentsInUse :
  DocumentNode -> FragmentRegistry -> list (string * nat).

Variable fragmentRegistry : FragmentRegistry.
Variable baseOutputDir : string.
Variable generateImportStatement : ImportStatementArgs -> string.

(** The [if (level === 0)] block. *)
Definition addTopLevelImports (fragmentDetails : FragmentRegistryEntry) (level : nat)
    (fragmentFileImports : JsObject.t JsSet.t) : JsObject.t JsSet.t :=
  if Nat.eqb level 0 then
    match JsObject.get (filePath fragmentDetails) fragmentFileImports with
    | None =>
        JsObject.set (filePath fragmentDetails)
          (JsSet.ofList (importNames fragmentDetails)) fragmentFileImports
    | Some importSet =>
        JsObject.set (filePath fragmentDetails)
          (fold_left JsSet.add (importNames fragmentDetails) importSet)
          fragmentFileImports
    end
  else fragmentFileImports.

(** The body of [for (const fragmentName of Object.keys(fragmentsInUse))]. *)
Definition planFragment (st : PlanState) (used : string * nat) : PlanState :=
  let '(fragmentName, level) := used in
  match JsObject.get fragmentName fragmentRegistry with
  | Some fragmentDetails =>
      {| collectedFragments :=
           collectedFragments st ++
             [ {| level := level;
                  isExternal := true;
                  name := fragmentName;
                  loadedOnType := onType fragmentDetails;
                  loadedNode := node fragmentDetails |} ];
         fragmentFileImports :=
           addTopLevelImports fragmentDetails level (fragmentFileImports st) |}
  | None => st
  end.

Definition planFragments (fragmentsInUse : list (string * nat)) : PlanState :=
  fold_left planFragment fragmentsInUse
    {| collectedFragments := []; fragmentFileImports := JsObject.empty |}.

(** The arguments [generateImportStatement] is called with, one call per
    entry of [fragmentFileImports]. *)
Definition importStatementCalls (generatedFilePath : string)
    (fragmentFileImports : JsObject.t JsSet.t) : list ImportStatementArgs :=
  map (fun entry : string * JsSet.t =>
         let '(fragmentsFilePath, importNames) := entry in
         {| argBaseOutputDir := baseOutputDir;
            relativeOutputPath := generatedFilePath;
            importSource := {| path := fragmentsFilePath;
                               names := JsSet.toList importNames |} |})
      (JsObject.entries fragmentFileImports).

Definition resolveFragments (generatedFilePath : string)
    (documentFileContent : DocumentNode) : ResolvedFragments :=
  let fragmentsInUse := extractExternalFragmentsInUse documentFileContent fragmentRegistry in
  let st := planFragments fragmentsInUse in
  {| externalFragments := collectedFragments st;
     fragmentImportStatements :=
       map generateImportStatement
         (importStatementCalls generatedFilePath (fragmentFileImports st)) |}.
End Planner.

Section Resolver.
Variable GraphQLNamedType : Type.
Variable getPossibleTypes :
  GraphQLSchema GraphQLNamedType -> GraphQLNamedType -> list GraphQLObjectType.
Variable print : FragmentDefinitionNode -> string.
Variable newBaseVisitor : RawConfig -> NearOperationFileParsedConfig -> BaseVisitor.
Variable extractExternalFragmentsInUse :
  DocumentNode -> FragmentRegistry -> list (string * nat).

Definition buildFragmentResolver (collectorOptions : DocumentImportResolverOptions)
    (presetOptions : PresetFnArgs) (schemaObject : GraphQLSchema GraphQLNamedType)
    : result (string -> DocumentNode -> ResolvedFragments) :=
  fragmentRegistry <-
    buildFragmentRegistry getPossibleTypes print newBaseVisitor
      collectorOptions presetOptions schemaObject ;;
  Return (resolveFragments extractExternalFragmentsInUse fragmentRegistry
            (baseOutputDir presetOptions)
            (generateImportStatement collectorOptions)).
End Resolver.

(** ** Sample collaborators

    Concrete collaborators on which the model runs.  They stand for code that
    the file imports or receives from its caller. *)

Module Sample.

Inductive NamedType : Type :=
| ObjectType (typeName : string)
| InterfaceType (typeName : string) (implementations : list string)
| UnionType (typeName : string) (members : list string)
| ScalarType (typeName : string).

Definition namedTypeName (t : NamedType) : string :=
  match t with
  | ObjectType n | InterfaceType n _ | UnionType n _ | ScalarType n => n
  end.

(** Modelled from the spec: the schema type lookup
    [getType(typeName) -> TypeOrNull], over a list of declared types. *)
Definition schemaOf (types : list NamedType) : GraphQLSchema NamedType :=
  {| getType := fun typeName =>
       find (fun t => String.eqb (namedTypeName t) typeName) types |}.

(** Modelled from the spec: the possible-type expansion [getPossibleTypes]
    of visitor-plugin-common.  An interface or union expands to its
    implementors or members, an object type expands to itself, anything
    else to the empty sequence. *)
Definition getPossibleTypes (schema : GraphQLSchema NamedType) (t : NamedType)
    : list GraphQLObjectType :=
  match t with
  | ObjectType n => [ {| objectTypeName := n |} ]
  | InterfaceType _ implementations =>
      map (fun n => {| objectTypeName := n |}) implementations
  | UnionType _ members => map (fun n => {| objectTypeName := n |}) members
  | ScalarType _ => []
  end.

(** Modelled from the spec: the serialized form of a fragment definition
    ([print] of the graphql library), equal for structurally equal
    definitions. *)
Fixpoint printSelection (s : SelectionNode) : string :=
  match s with
  | Field n [] => n
  | Field n sub => n ++ " { " ++ String.concat " " (map printSelection sub) ++ " }"
  | FragmentSpread n => "..." ++ n
  | InlineFragment None sub =>
      "... { " ++ String.concat " " (map printSelection sub) ++ " }"
  | InlineFragment (Some t) sub =>
      "... on " ++ t ++ " { " ++ String.concat " " (map printSelection sub) ++ " }"
  end.

Definition print (fragment : FragmentDefinitionNode) : string :=
  "fragment " ++ name_value fragment ++ " on " ++ typeCondition_name_value fragment
  ++ " { " ++ String.concat " " (map printSelection (fragmentSelectionSet fragment))
  ++ " }".

(** Modelled from the spec: the naming authority ([BaseVisitor] of
    visitor-plugin-common) with the default naming convention.
    [fragmentVariableName] is the name between the configured prefix and
    suffix, [fragmentSuffix] is [Fragment] unless the operation suffix is
    omitted, and [typeSpecializedName] appends the given suffix to the name. *)
Definition newBaseVisitor (config : RawConfig) (parsed : NearOperationFileParsedConfig)
    : BaseVisitor :=
  {| getFragmentVariableName := fun name =>
       (parsedFragmentVariablePrefix parsed ++ name
          ++ parsedFragmentVariableSuffix parsed)%string;
     getFragmentSuffix := fun name =>
       if parsedOmitOperationSuffix parsed then EmptyString else "Fragment";
     convertName := fun name options => (name ++ suffix options)%string |}.

Fixpoint beforeLastDot (s : string) : option string :=
  match s with
  | EmptyString => None
  | String c rest =>
      match beforeLastDot rest with
      | Some p => Some (String c p)
      | None => if Ascii.eqb c "." then Some EmptyString else None
      end
  end.

(** Modelled from the spec: the file-path derivation
    [generateFilePath(location) -> string] supplied by the preset, which
    puts the generated file next to its source: [A.graphql] gives
    [A.generated]. *)
Definition nearOperationFilePath (location : string) : string :=
  match beforeLastDot location with
  | Some stem => (stem ++ ".generated")%string
  | None => (location ++ ".generated")%string
  end.

(** Modelled from the spec: the import-statement generator supplied by the
    preset; it renders the symbol list and the source path. *)
Definition renderImportStatement (args : ImportStatementArgs) : string :=
  "import { " ++ String.concat ", " (names (importSource args))
  ++ " } from './" ++ path (importSource args) ++ "'".

Definition collectorOptions : DocumentImportResolverOptions :=
  {| generateFilePath := nearOperationFilePath;
     generateImportStatement := renderImportStatement |}.

Fixpoint selectionSpreads (s : SelectionNode) : list string :=
  match s with
  | Field _ sub => flat_map selectionSpreads sub
  | FragmentSpread n => [n]
  | InlineFragment _ sub => flat_map selectionSpreads sub
  end.

Definition definitionSpreads (d : DefinitionNode) : list string :=
  match d with
  | OperationDefinition _ _ sub => flat_map selectionSpreads sub
  | FragmentDefinition fragment =>
      flat_map selectionSpreads (fragmentSelectionSet fragment)
  | OtherDefinition => []
  end.

Definition mem (x : string) (l : list string) : bool := existsb (String.eqb x) l.

(** One level of the walk: the registered names of [frontier] not reported
    yet are reported at [depth]; the spreads of their bodies form the next
    frontier. *)
Fixpoint walkLevels (fuel : nat) (registry : FragmentRegistry)
    (frontier : list string) (depth : nat) (reported : list (string * nat))
    : list (string * nat) :=
  match fuel with
  | 0 => reported
  | S fuel' =>
      let fresh :=
        fold_left
          (fun acc n =>
             match JsObject.get n registry with
             | Some _ =>
                 if mem n (map fst reported ++ acc) then acc else acc ++ [n]
             | None => acc
             end)
          frontier [] in
      match fresh with
      | [] => reported
      | _ =>
          walkLevels fuel' registry
            (flat_map
               (fun n =>
                  match JsObject.get n registry with
                  | Some e => flat_map selectionSpreads (fragmentSelectionSet (node e))
                  | None => []
                  end)
               fresh)
            (S depth)
            (reported ++ map (fun n => (n, depth)) fresh)
      end
  end.

(** Modelled from the spec: the usage resolver
    ([extractExternalFragmentsInUse] of [./utils]).  A registered fragment
    spread by the document is reported at depth 0, one reached through the
    body of a fragment of depth [d] at depth [d + 1]; names absent from the
    registry are not reported. *)
Definition extractExternalFragmentsInUse (documentNode : DocumentNode)
    (registry : FragmentRegistry) : list (string * nat) :=
  walkLevels (S (length registry)) registry
    (flat_map definitionSpreads (definitions documentNode)) 0 [].

(** A usage resolver that reports every fragment spread of the document at
    depth 0, registered or not. *)
Definition reportEverySpread (documentNode : DocumentNode) (registry : FragmentRegistry)
    : list (string * nat) :=
  map (fun n => (n, 0)) (flat_map definitionSpreads (definitions documentNode)).

(** *** Scenario inputs *)

Definition defaultConfig : RawConfig :=
  {| documentMode := None;
     dedupeOperationSuffix := None;
     omitOperationSuffix := None;
     fragmentVariablePrefix := None;
     fragmentVariableSuffix := None |}.

Definition userSchema : GraphQLSchema NamedType :=
  schemaOf [ ObjectType "Query"; ObjectType "User";
             InterfaceType "Unimplemented" [];
             InterfaceType "Node" ["User"; "Post"; "Comment"];
             ObjectType "Post"; ObjectType "Comment" ].

Definition fragmentOn (fragmentName typeName : string) (fields : list string)
    : FragmentDefinitionNode :=
  {| name_value := fragmentName;
     typeCondition_name_value := typeName;
     fragmentSelectionSet := map (fun f => Field f []) fields |}.

Definition fileOf (location : string) (defs : list DefinitionNode) : DocumentFile :=
  {| document := {| definitions := defs |}; location := location |}.

Definition presetOf (documents : list DocumentFile) (plugins : list string)
    : PresetFnArgs :=
  {| documents := documents;
     config := defaultConfig;
     plugins := map (fun k => {| firstKey := k |}) plugins;
     baseOutputDir := "out" |}.

Definition build (documents : list DocumentFile) (plugins : list string)
    : result FragmentRegistry :=
  buildFragmentRegistry getPossibleTypes print newBaseVisitor collectorOptions
    (presetOf documents plugins) userSchema.

(** [fragment F on User {id}] in [A.graphql] and [query Q { user { ...F } }]
    in [B.graphql]. *)
Definition fragmentF : FragmentDefinitionNode := fragmentOn "F" "User" ["id"].

Definition documentA : DocumentFile :=
  fileOf "A.graphql" [FragmentDefinition fragmentF].

Definition queryQ : DocumentNode :=
  {| definitions :=
       [OperationDefinition "query" (Some "Q") [Field "user" [FragmentSpread "F"]]] |}.

Definition documentB : DocumentFile :=
  {| document := queryQ; location := "B.graphql" |}.

(** Two documents defining [fragment Dup on User {id}]. *)
Definition dupId : FragmentDefinitionNode := fragmentOn "Dup" "User" ["id"].
Definition dupIdName : FragmentDefinitionNode := fragmentOn "Dup" "User" ["id"; "name"].

Definition identicalDuplicates : list DocumentFile :=
  [ fileOf "A.graphql" [FragmentDefinition dupId];
    fileOf "B.graphql" [FragmentDefinition dupId] ].

(** A conflict followed by a fragment on a type the schema lacks. *)
Definition conflictThenUnknownType : list DocumentFile :=
  [ fileOf "A.graphql" [FragmentDefinition dupId];
    fileOf "B.graphql" [FragmentDefinition dupIdName];
    fileOf "C.graphql" [FragmentDefinition (fragmentOn "G" "Missing" ["id"])] ].

(** Two conflicting names. *)
Definition twoConflicts : list DocumentFile :=
  [ fileOf "A.graphql" [FragmentDefinition dupId;
                        FragmentDefinition (fragmentOn "Other" "Post" ["id"])];
    fileOf "B.graphql" [FragmentDefinition dupIdName;
                        FragmentDefinition (fragmentOn "Other" "Post" ["title"])] ].

(** One file with a fragment on an interface without implementors and a
    fragment on an object type; a query spreading both. *)
Definition fragmentE : FragmentDefinitionNode := fragmentOn "E" "Unimplemented" ["id"].
Definition fragmentG : FragmentDefinitionNode := fragmentOn "G" "User" ["id"].

Definition sharedFile : list DocumentFile :=
  [ fileOf "A.graphql" [FragmentDefinition fragmentE; FragmentDefinition fragmentG] ].

Definition queryEG : DocumentNode :=
  {| definitions :=
       [OperationDefinition "query" (Some "Q")
          [Field "user" [FragmentSpread "E"; FragmentSpread "G"]]] |}.

Definition queryE : DocumentNode :=
  {| definitions :=
       [OperationDefinition "query" (Some "Q") [Field "user" [FragmentSpread "E"]]] |}.

(** Planning one output file against the registry built from [documents]. *)
Definition plan (documents : list DocumentFile) (plugins : list string)
    (generatedFilePath : string) (documentFileContent : DocumentNode)
    : result ResolvedFragments :=
  resolve <-
    buildFragmentResolver getPossibleTypes print newBaseVisitor
      extractExternalFragmentsInUse collectorOptions
      (presetOf documents plugins) userSchema ;;
  Return (resolve generatedFilePath documentFileContent).

End Sample.

(** ** Vocabulary of the specification

    Definitions that follow the specification's words; the theorems below
    compare them with the code. *)

(** The fragment definitions of a document set in document order, then
    definition order, each with the document it comes from. *)
Definition scanItems (documents : list DocumentFile)
    : list (DocumentFile * FragmentDefinitionNode) :=
  flat_map
    (fun documentRecord =>
       map (pair documentRecord)
         (fragmentDefinitions (definitions (document documentRecord))))
    documents.

(** The fragment's type condition resolves against the schema. *)
Definition resolvesType {NamedType : Type} (schemaObject : GraphQLSchema NamedType)
    (fragment : FragmentDefinitionNode) : Prop :=
  getType schemaObject (typeCondition_name_value fragment) <> None.

(** Two definitions of the set carry the name [fragmentName] and have
    different serialized forms. *)
Definition conflictingName (print : FragmentDefinitionNode -> string)
    (items : list (DocumentFile * FragmentDefinitionNode)) (fragmentName : string) : Prop :=
  exists d1 f1 d2 f2,
    In (d1, f1) items /\ In (d2, f2) items /\
    name_value f1 = fragmentName /\ name_value f2 = fragmentName /\
    print f1 <> print f2.

(** A plugin with the document-value capability: its key, lowercased, is a
    listed plugin name or that name under the [@graphql-codegen/] scope. *)
Definition hasDocumentValueCapability (pluginRecord : ConfiguredPlugin) : Prop :=
  exists t, In t DOC_VAR_PLUGINS /\
    (toLowerCase (firstKey pluginRecord) = t \/
     toLowerCase (firstKey pluginRecord) = ("@graphql-codegen/" ++ t)%string).

(** The document representation mode in force is one of the node-based or
    external modes. *)
Definition nodeBasedOrExternalMode (config : RawConfig) : Prop :=
  let mode := getConfigValue (documentMode config) graphQLTag in
  mode = documentNode \/ mode = external \/ mode = documentNodeImportFragments.

(** The type-specialized symbol names of a fragment, by the number of
    possible types of its type condition. *)
Definition typeSpecializedNames (baseVisitor : BaseVisitor) (possibleTypes : list string)
    (name : string) : list string :=
  match possibleTypes with
  | [] => []
  | [_] =>
      [convertName baseVisitor name
         {| useTypesPrefix := true; suffix := getFragmentSuffix baseVisitor name |}]
  | _ =>
      map (fun typeName =>
             convertName baseVisitor name
               {| useTypesPrefix := true;
                  suffix := ("_" ++ typeName ++ "_" ++ getFragmentSuffix baseVisitor name)%string |})
          possibleTypes
  end.

(** The reference emitted for one pair of the depth map, when its name is
    registered. *)
Definition loadedFragmentOf (fragmentRegistry : FragmentRegistry) (used : string * nat)
    : option LoadedFragment :=
  match JsObject.get (fst used) fragmentRegistry with
  | Some fragmentDetails =>
      Some {| level := snd used;
              isExternal := true;
              name := fst used;
              loadedOnType := onType fragmentDetails;
              loadedNode := node fragmentDetails |}
  | None => None
  end.

(** The depth map traversed in its iteration order, one reference per
    registered name. *)
Fixpoint referencesInOrder (fragmentRegistry : FragmentRegistry)
    (fragmentsInUse : list (string * nat)) : list LoadedFragment :=
  match fragmentsInUse with
  | [] => []
  | used :: rest =>
      match loadedFragmentOf fragmentRegistry used with
      | Some reference => reference :: referencesInOrder fragmentRegistry rest
      | None => referencesInOrder fragmentRegistry rest
      end
  end.

(** The symbol [symbol] is contributed to the import group of [groupPath] by
    a registered fragment that the depth map holds at depth 0. *)
Definition contributes (fragmentRegistry : FragmentRegistry)
    (fragmentsInUse : list (string * nat)) (groupPath symbol : string) : Prop :=
  exists fragmentName fragmentDetails,
    In (fragmentName, 0) fragmentsInUse /\
    JsObject.get fragmentName fragmentRegistry = Some fragmentDetails /\
    filePath fragmentDetails = groupPath /\
    In symbol (importNames fragmentDetails).

(** Some registered fragment at depth 0 is exported by [groupPath]. *)
Definition importsFrom (fragmentRegistry : FragmentRegistry)
    (fragmentsInUse : list (string * nat)) (groupPath : string) : Prop :=
  exists fragmentName fragmentDetails,
    In (fragmentName, 0) fragmentsInUse /\
    JsObject.get fragmentName fragmentRegistry = Some fragmentDetails /\
    filePath fragmentDetails = groupPath.

(** The depth map without the pairs of [fragmentName]. *)
Definition withoutName (fragmentName : string) (fragmentsInUse : list (string * nat))
    : list (string * nat) :=
  filter (fun used : string * nat => negb (String.eqb (fst used) fragmentName))
    fragmentsInUse.

(** The document-variable symbol names of a fragment: one when the
    configuration calls for it, none otherwise. *)
Definition documentVariableNames (baseVisitor : BaseVisitor) (config : RawConfig)
    (plugins : list ConfiguredPlugin) (name : string) : list string :=
  if (isUsingDocVarPlugin plugins
      && negb (isDocumentNodeOrExternal (getConfigValue (documentMode config) graphQLTag)))%bool
  then [getFragmentVariableName baseVisitor name]
  else [].

Section Scan.
Variable GraphQLNamedType : Type.
Variable getPossibleTypes :
  GraphQLSchema GraphQLNamedType -> GraphQLNamedType -> list GraphQLObjectType.
Variable print : FragmentDefinitionNode -> string.
Variable newBaseVisitor : RawConfig -> NearOperationFileParsedConfig -> BaseVisitor.
Variable collectorOptions : DocumentImportResolverOptions.
Variable presetOptions : PresetFnArgs.
Variable schemaObject : GraphQLSchema GraphQLNamedType.

(** The loop body run over the fragment definitions of the whole document
    set, in scan order. *)
Fixpoint scanFragments (items : list (DocumentFile * FragmentDefinitionNode))
    (st : BuildState) : result BuildState :=
  match items with
  | [] => Return st
  | (documentRecord, fragment) :: rest =>
      st' <- processFragment getPossibleTypes print newBaseVisitor collectorOptions
               presetOptions schemaObject documentRecord st fragment ;;
      scanFragments rest st'
  end.
End Scan.

(** The import groups hold each path once and each symbol of a group once. *)
Definition wellFormedGroups (groups : JsObject.t JsSet.t) : Prop :=
  NoDup (JsObject.keys groups) /\
  forall groupPath symbols,
    JsObject.get groupPath groups = Some symbols -> NoDup symbols.

(** [symbol] is in the group of [groupPath]. *)
Definition inGroup (groups : JsObject.t JsSet.t) (groupPath symbol : string) : Prop :=
  exists symbols, JsObject.get groupPath groups = Some symbols /\ In symbol symbols.

(** The fragment name is registered. *)
Definition isRegistered (fragmentRegistry : FragmentRegistry) (fragmentName : string) : bool :=
  match JsObject.get fragmentName fragmentRegistry with
  | Some _ => true
  | None => false
  end.

(** The pairs of the depth map at depth 0. *)
Definition directOnly (fragmentsInUse : list (string * nat)) : list (string * nat) :=
  filter (fun used : string * nat => Nat.eqb (snd used) 0) fragmentsInUse.

(** The distinct elements of a list, each at the place of its first
    occurrence. *)
Fixpoint firstOccurrences (l : list string) : list string :=
  match l with
  | [] => []
  | x :: rest => x :: filter (fun y => negb (String.eqb y x)) (firstOccurrences rest)
  end.

(** The names, in scan order, of the fragment definitions whose serialized
    form differs from that of the most recent earlier definition of the same
    name; a name appears once for every such definition.  [seen] holds the
    earlier definitions, the most recent first. *)
Fixpoint redefinitions (print : FragmentDefinitionNode -> string)
    (seen fragments : list FragmentDefinitionNode) : list string :=
  match fragments with
  | [] => []
  | f :: rest =>
      match find (fun g => String.eqb (name_value g) (name_value f)) seen with
      | Some g => if String.eqb (print f) (print g) then [] else [name_value f]
      | None => []
      end ++ redefinitions print (f :: seen) rest
  end.

(** The registry entries of the registered names that the depth map holds at
    depth 0, in the order of the depth map. *)
Definition directEntries (fragmentRegistry : FragmentRegistry)
    (fragmentsInUse : list (string * nat)) : list FragmentRegistryEntry :=
  flat_map
    (fun used : string * nat =>
       if Nat.eqb (snd used) 0 then
         match JsObject.get (fst used) fragmentRegistry with
         | Some fragmentDetails => [fragmentDetails]
         | None => []
         end
       else [])
    fragmentsInUse.

(** The import names of the entries exported by [groupPath], in order. *)
Definition symbolsFrom (entries : list FragmentRegistryEntry) (groupPath : string)
    : list string :=
  flat_map importNames
    (filter (fun e => String.eqb (filePath e) groupPath) entries).

(** Three documents defining [Dup]: with one field, with two, and with one
    again. *)
Definition redefinedTwice : list DocumentFile :=
  [ Sample.fileOf "A.graphql" [FragmentDefinition Sample.dupId];
    Sample.fileOf "B.graphql" [FragmentDefinition Sample.dupIdName];
    Sample.fileOf "C.graphql" [FragmentDefinition Sample.dupId] ].

(** The registry, read through the definitions it stores, agrees with the
    history of the scan: under each name it holds the most recent definition
    of [seen], whose first element is the most recent. *)
Definition tracks (st : BuildState) (seen : list FragmentDefinitionNode) : Prop :=
  forall n,
    option_map node (JsObject.get n (prev st))
    = find (fun g => String.eqb (name_value g) n) seen.

(** The names that every object inherits from [Object.prototype].  On an
    object that lacks the key, the source's read of one of them yields the
    inherited member, which is truthy and is not [undefined]. *)
Definition objectPrototypeMembers : list string :=
  [ "constructor"; "hasOwnProperty"; "isPrototypeOf"; "propertyIsEnumerable";
    "toLocaleString"; "toString"; "valueOf"; "__proto__";
    "__defineGetter__"; "__defineSetter__"; "__lookupGetter__"; "__lookupSetter__" ].

Definition isPlainKey (k : string) : bool :=
  negb (existsb (String.eqb k) objectPrototypeMembers).

(** The key is not a member of [Object.prototype]. *)
Definition plainKey (k : string) : Prop := isPlainKey k = true.

Definition isDigit (c : ascii) : bool :=
  (Nat.leb 48 (nat_of_ascii c) && Nat.leb (nat_of_ascii c) 57)%bool.

Fixpoint allDigits (s : string) : bool :=
  match s with
  | EmptyString => true
  | String c rest => (isDigit c && allDigits rest)%bool
  end.

(** A non-empty string of decimal digits; every array index is one. *)
Definition isDigitString (s : string) : bool :=
  match s with
  | EmptyString => false
  | _ => allDigits s
  end.

(** No fragment definition of the scan bears the name of a member of
    [Object.prototype]. *)
Definition plainFragmentNames (items : list (DocumentFile * FragmentDefinitionNode))
    : Prop :=
  forall d f, In (d, f) items -> plainKey (name_value f).

(** The keys the planner reads are not members of [Object.prototype]: the
    names of the depth map, looked up in the registry, and the file paths of
    the registered fragments of depth 0, looked up in the import groups. *)
Definition plainPlan (fragmentRegistry : FragmentRegistry)
    (fragmentsInUse : list (string * nat)) : Prop :=
  (forall fragmentName depth,
     In (fragmentName, depth) fragmentsInUse -> plainKey fragmentName) /\
  (forall fragmentName fragmentDetails,
     In (fragmentName, 0) fragmentsInUse ->
     JsObject.get fragmentName fragmentRegistry = Some fragmentDetails ->
     plainKey (filePath fragmentDetails)).

(** No file path of a registered fragment of depth 0 is an array index. *)
Definition noIndexPaths (fragmentRegistry : FragmentRegistry)
    (fragmentsInUse : list (string * nat)) : Prop :=
  forall fragmentName fragmentDetails,
    In (fragmentName, 0) fragmentsInUse ->
    JsObject.get fragmentName fragmentRegistry = Some fragmentDetails ->
    isDigitString (filePath fragmentDetails) = false.

(** * Properties *)

(** ** Containers *)

Section JsObjectFacts.
Variable V : Type.
Implicit Types (o : JsObject.t V) (k : string) (v : V).

Lemma jsobject_get_set_eq k v o : JsObject.get k (JsObject.set k v o) = Some v.
Proof.
  induction o as [|[k' v'] o IH]; simpl.
  - now rewrite String.eqb_refl.
  - destruct (String.eqb k k') eqn:E; simpl; rewrite ?String.eqb_refl, ?E; auto.
Qed.

Lemma jsobject_get_set_neq k k' v o :
  k <> k' -> JsObject.get k' (JsObject.set k v o) = JsObject.get k' o.
Proof.
  intros Hne. induction o as [|[k0 v0] o IH]; simpl.
  - destruct (String.eqb_spec k' k); congruence.
  - destruct (String.eqb_spec k k0) as [->|Hk]; simpl.
    + destruct (String.eqb_spec k' k0); congruence.
    + destruct (String.eqb_spec k' k0); auto.
Qed.

Lemma jsobject_keys_set k v o k' :
  In k' (JsObject.keys (JsObject.set k v o)) <-> k' = k \/ In k' (JsObject.keys o).
Proof.
  unfold JsObject.keys. induction o as [|[k0 v0] o IH]; simpl.
  - intuition.
  - destruct (String.eqb_spec k k0) as [->|Hk]; simpl.
    + intuition.
    + rewrite IH. intuition.
Qed.

Lemma jsobject_keys_set_nodup k v o :
  NoDup (JsObject.keys o) -> NoDup (JsObject.keys (JsObject.set k v o)).
Proof.
  unfold JsObject.keys. induction o as [|[k0 v0] o IH]; simpl; intros Hnd.
  - constructor; [intros [] | constructor].
  - inversion Hnd as [|? ? Hnotin Hnd']; subst.
    destruct (String.eqb_spec k k0) as [->|Hk]; simpl.
    + constructor; assumption.
    + constructor; [|auto].
      intros Hin. apply (jsobject_keys_set k v o k0) in Hin.
      destruct Hin as [Heq|Hin]; [congruence | contradiction].
Qed.

Lemma jsobject_get_in k v o : JsObject.get k o = Some v -> In (k, v) o.
Proof.
  induction o as [|[k0 v0] o IH]; simpl; [discriminate|].
  destruct (String.eqb_spec k k0) as [->|Hk]; intros H.
  - left. congruence.
  - right. auto.
Qed.

Lemma jsobject_get_none k o : JsObject.get k o = None <-> ~ In k (JsObject.keys o).
Proof.
  unfold JsObject.keys. induction o as [|[k0 v0] o IH]; simpl.
  - intuition.
  - destruct (String.eqb_spec k k0) as [->|Hk].
    + split; [discriminate | intros H; exfalso; apply H; now left].
    + rewrite IH. intuition congruence.
Qed.

Lemma jsobject_in_get k v o :
  NoDup (JsObject.keys o) -> In (k, v) o -> JsObject.get k o = Some v.
Proof.
  unfold JsObject.keys. induction o as [|[k0 v0] o IH]; simpl; intros Hnd Hin.
  - contradiction.
  - inversion Hnd as [|? ? Hnotin Hnd']; subst.
    destruct Hin as [Heq|Hin].
    + inversion Heq; subst. now rewrite String.eqb_refl.
    + destruct (String.eqb_spec k k0) as [->|Hk]; [|auto].
      exfalso. apply Hnotin. apply in_map_iff. exists (k0, v). auto.
Qed.
End JsObjectFacts.

Section JsSetFacts.
Implicit Types (s : JsSet.t) (x y : string).

Lemma jsset_has_in s x : JsSet.has s x = true <-> In x s.
Proof.
  unfold JsSet.has. rewrite existsb_exists. split.
  - intros [y [Hy Heq]]. apply String.eqb_eq in Heq. now subst.
  - intros H. exists x. split; [assumption | apply String.eqb_refl].
Qed.

Lemma jsset_in_add s x y : In y (JsSet.add s x) <-> In y s \/ y = x.
Proof.
  unfold JsSet.add. destruct (JsSet.has s x) eqn:E.
  - apply jsset_has_in in E. intuition (subst; auto).
  - rewrite in_app_iff. simpl. intuition.
Qed.

Lemma jsset_add_nodup s x : NoDup s -> NoDup (JsSet.add s x).
Proof.
  intros Hnd. unfold JsSet.add. destruct (JsSet.has s x) eqn:E; [assumption|].
  assert (Hnot : ~ In x s).
  { intros Hin. apply jsset_has_in in Hin. congruence. }
  clear E. induction Hnd as [|a l Ha Hnd IH]; simpl.
  - constructor; [intros [] | constructor].
  - constructor.
    + rewrite in_app_iff. simpl. intros [H|[H|[]]]; [contradiction|].
      apply Hnot. now left.
    + apply IH. intros H. apply Hnot. now right.
Qed.

Lemma jsset_in_fold_add l s y :
  In y (fold_left JsSet.add l s) <-> In y s \/ In y l.
Proof.
  revert s. induction l as [|x l IH]; intros s; simpl.
  - intuition.
  - rewrite IH, jsset_in_add. intuition.
Qed.

Lemma jsset_fold_add_nodup l s : NoDup s -> NoDup (fold_left JsSet.add l s).
Proof.
  revert s. induction l as [|x l IH]; intros s Hnd; simpl; [assumption|].
  apply IH. now apply jsset_add_nodup.
Qed.

Lemma jsset_in_ofList l y : In y (JsSet.ofList l) <-> In y l.
Proof. unfold JsSet.ofList. rewrite jsset_in_fold_add. simpl. intuition. Qed.

Lemma jsset_ofList_nodup l : NoDup (JsSet.ofList l).
Proof. apply jsset_fold_add_nodup. constructor. Qed.

Lemma jsset_fold_add_nil l s : (forall y, ~ In y l) -> fold_left JsSet.add l s = s.
Proof.
  destruct l as [|x l]; [reflexivity|].
  intros H. exfalso. apply (H x). now left.
Qed.
End JsSetFacts.

(** ** Symbol names of a fragment *)

Lemma fold_left_push (A B : Type) (g : A -> B) (l : list A) (acc : list B) :
  fold_left (fun acc x => acc ++ [g x]) l acc = acc ++ map g l.
Proof.
  revert acc. induction l as [|x l IH]; intros acc; simpl.
  - now rewrite app_nil_r.
  - rewrite IH, <- app_assoc. reflexivity.
Qed.

Lemma getAllFragmentSubTypes_split baseVisitor config plugins possibleTypes name :
  getAllFragmentSubTypes baseVisitor config plugins possibleTypes name
  = documentVariableNames baseVisitor config plugins name
    ++ typeSpecializedNames baseVisitor possibleTypes name.
Proof.
  unfold getAllFragmentSubTypes, documentVariableNames, typeSpecializedNames.
  destruct possibleTypes as [|t1 [|t2 rest]]; simpl length; cbv iota beta.
  - simpl. destruct (isUsingDocVarPlugin plugins); simpl;
      [destruct (isDocumentNodeOrExternal _)|]; simpl; reflexivity.
  - simpl. destruct (isUsingDocVarPlugin plugins); simpl;
      [destruct (isDocumentNodeOrExternal _)|]; simpl; reflexivity.
  - change (Nat.eqb (S (S (length rest))) 1) with false.
    change (Nat.eqb (S (S (length rest))) 0) with false.
    cbv iota beta. simpl negb. cbv iota.
    rewrite fold_left_push.
    destruct (isUsingDocVarPlugin plugins); simpl andb;
      [destruct (isDocumentNodeOrExternal _)|]; simpl negb; cbv iota; reflexivity.
Qed.

Lemma matchesDocVarPlugin_spec pluginKey t :
  matchesDocVarPlugin pluginKey t = true
  <-> pluginKey = t \/ pluginKey = ("@graphql-codegen/" ++ t)%string.
Proof.
  unfold matchesDocVarPlugin. rewrite orb_true_iff, !String.eqb_eq.
  intuition congruence.
Qed.

Lemma isUsingDocVarPlugin_spec plugins :
  isUsingDocVarPlugin plugins = true
  <-> exists pluginRecord, In pluginRecord plugins /\ hasDocumentValueCapability pluginRecord.
Proof.
  induction plugins as [|p rest IH].
  - simpl. split; [discriminate | intros [? [[] _]]].
  - change (isUsingDocVarPlugin (p :: rest))
      with (match find (matchesDocVarPlugin (toLowerCase (firstKey p))) DOC_VAR_PLUGINS with
            | Some _ => true
            | None => isUsingDocVarPlugin rest
            end).
    destruct (find (matchesDocVarPlugin (toLowerCase (firstKey p))) DOC_VAR_PLUGINS)
      as [t|] eqn:Hfind.
    + split; [intros _ | reflexivity].
      apply find_some in Hfind. destruct Hfind as [Hin Hm].
      apply matchesDocVarPlugin_spec in Hm.
      exists p. split; [now left|]. exists t. auto.
    + rewrite IH. split.
      * intros [q [Hq Hcap]]. exists q. split; [now right | assumption].
      * intros [q [[<-|Hq] Hcap]]; [|exists q; split; assumption].
        destruct Hcap as [t [Hin Hm]].
        apply matchesDocVarPlugin_spec in Hm.
        rewrite (find_none _ _ Hfind t Hin) in Hm. discriminate.
Qed.

Lemma isDocumentNodeOrExternal_spec mode :
  isDocumentNodeOrExternal mode = true
  <-> mode = documentNode \/ mode = external \/ mode = documentNodeImportFragments.
Proof.
  destruct mode; simpl; split; intros H; auto; try discriminate;
    destruct H as [H|[H|H]]; discriminate.
Qed.

Lemma documentVariableNames_on baseVisitor config plugins name :
  (exists pluginRecord, In pluginRecord plugins /\ hasDocumentValueCapability pluginRecord) ->
  ~ nodeBasedOrExternalMode config ->
  documentVariableNames baseVisitor config plugins name
  = [getFragmentVariableName baseVisitor name].
Proof.
  intros Hcap Hmode. unfold documentVariableNames.
  apply isUsingDocVarPlugin_spec in Hcap. rewrite Hcap. simpl.
  destruct (isDocumentNodeOrExternal _) eqn:E; [|reflexivity].
  apply isDocumentNodeOrExternal_spec in E. contradiction.
Qed.

Lemma documentVariableNames_off baseVisitor config plugins name :
  ~ ((exists pluginRecord, In pluginRecord plugins /\ hasDocumentValueCapability pluginRecord)
     /\ ~ nodeBasedOrExternalMode config) ->
  documentVariableNames baseVisitor config plugins name = [].
Proof.
  intros Hnot. unfold documentVariableNames.
  destruct (isUsingDocVarPlugin plugins) eqn:Hp; [|reflexivity]. simpl.
  destruct (isDocumentNodeOrExternal _) eqn:E; [reflexivity|].
  exfalso. apply Hnot. split.
  - now apply isUsingDocVarPlugin_spec.
  - intros Hm. apply isDocumentNodeOrExternal_spec in Hm.
    unfold nodeBasedOrExternalMode in *. congruence.
Qed.

(** ** The registry builder *)

Section BuilderFacts.
Variable GraphQLNamedType : Type.
Variable getPossibleTypes :
  GraphQLSchema GraphQLNamedType -> GraphQLNamedType -> list GraphQLObjectType.
Variable print : FragmentDefinitionNode -> string.
Variable newBaseVisitor : RawConfig -> NearOperationFileParsedConfig -> BaseVisitor.
Variable collectorOptions : DocumentImportResolverOptions.
Variable presetOptions : PresetFnArgs.
Variable schemaObject : GraphQLSchema GraphQLNamedType.

Local Abbreviation process :=
  (processFragment getPossibleTypes print newBaseVisitor collectorOptions
     presetOptions schemaObject).
Local Abbreviation scan :=
  (scanFragments getPossibleTypes print newBaseVisitor collectorOptions
     presetOptions schemaObject).
Local Abbreviation entryFor :=
  (registryEntry getPossibleTypes newBaseVisitor collectorOptions
     presetOptions schemaObject).
Local Abbreviation build :=
  (buildFragmentRegistry getPossibleTypes print newBaseVisitor collectorOptions
     presetOptions schemaObject).

Implicit Types (st : BuildState) (f g : FragmentDefinitionNode) (d : DocumentFile)
  (items : list (DocumentFile * FragmentDefinitionNode)) (n : string).

(** *** One step of the scan *)

Lemma process_resolved d st f schemaType :
  getType schemaObject (typeCondition_name_value f) = Some schemaType ->
  process d st f
  = Return {| prev := JsObject.set (name_value f) (entryFor d schemaType f) (prev st);
              duplicateFragmentNames :=
                if isConflict print (prev st) f
                then duplicateFragmentNames st ++ [name_value f]
                else duplicateFragmentNames st |}.
Proof. intros H. unfold processFragment. now rewrite H. Qed.

Lemma process_unresolved d st f :
  getType schemaObject (typeCondition_name_value f) = None ->
  process d st f = Throw (unknownTypeMessage f).
Proof. intros H. unfold processFragment. now rewrite H. Qed.

Lemma process_inv d st f st' :
  process d st f = Return st' ->
  exists schemaType,
    getType schemaObject (typeCondition_name_value f) = Some schemaType /\
    prev st' = JsObject.set (name_value f) (entryFor d schemaType f) (prev st) /\
    duplicateFragmentNames st'
    = (if isConflict print (prev st) f
       then duplicateFragmentNames st ++ [name_value f]
       else duplicateFragmentNames st).
Proof.
  destruct (getType schemaObject (typeCondition_name_value f)) as [ty|] eqn:E.
  - rewrite (process_resolved d st f E). intros H. inversion H; subst; simpl.
    exists ty. auto.
  - rewrite (process_unresolved d st f E). discriminate.
Qed.

Lemma isConflict_true st f :
  isConflict print (prev st) f = true ->
  exists existing,
    JsObject.get (name_value f) (prev st) = Some existing /\
    print f <> print (node existing).
Proof.
  unfold isConflict. destruct (JsObject.get (name_value f) (prev st)) as [e|];
    [|discriminate].
  intros H. exists e. split; [reflexivity|].
  apply negb_true_iff in H. now apply String.eqb_neq in H.
Qed.

Lemma isConflict_false st f existing :
  isConflict print (prev st) f = false ->
  JsObject.get (name_value f) (prev st) = Some existing ->
  print f = print (node existing).
Proof.
  unfold isConflict. intros H Hget. rewrite Hget in H.
  apply negb_false_iff in H. now apply String.eqb_eq in H.
Qed.

(** *** The scan as one loop over the fragment definitions *)

Lemma scan_app items1 items2 st :
  scan (items1 ++ items2) st = (st' <- scan items1 st ;; scan items2 st').
Proof.
  revert st. induction items1 as [|[d f] items1 IH]; intros st; simpl; [reflexivity|].
  destruct (process d st f) as [st1|msg]; simpl; auto.
Qed.

Lemma forEachFragment_scan d fragments st :
  forEachFragment getPossibleTypes print newBaseVisitor collectorOptions
    presetOptions schemaObject d fragments st
  = scan (map (pair d) fragments) st.
Proof.
  revert st. induction fragments as [|f fragments IH]; intros st; simpl; [reflexivity|].
  destruct (process d st f) as [st1|msg]; simpl; auto.
Qed.

Lemma reduceDocuments_scan documents st :
  reduceDocuments getPossibleTypes print newBaseVisitor collectorOptions
    presetOptions schemaObject documents st
  = scan (scanItems documents) st.
Proof.
  revert st. induction documents as [|d documents IH]; intros st; simpl; [reflexivity|].
  rewrite scan_app, forEachFragment_scan.
  destruct (scan (map (pair d) _) st) as [st1|msg]; simpl; auto.
Qed.

Lemma scan_unknown_type earlier d f later st :
  (forall d' f', In (d', f') earlier -> resolvesType schemaObject f') ->
  getType schemaObject (typeCondition_name_value f) = None ->
  scan (earlier ++ (d, f) :: later) st = Throw (unknownTypeMessage f).
Proof.
  revert st. induction earlier as [|[d0 f0] earlier IH]; intros st Hres Hnone; simpl.
  - now rewrite (process_unresolved d st f Hnone).
  - assert (Hf0 : resolvesType schemaObject f0) by (apply (Hres d0); now left).
    unfold resolvesType in Hf0.
    destruct (getType schemaObject (typeCondition_name_value f0)) as [ty|] eqn:E;
      [|congruence].
    rewrite (process_resolved d0 st f0 E). simpl.
    apply IH; [|assumption].
    intros d' f' Hin. apply (Hres d'). now right.
Qed.

Lemma scan_returns items st :
  (forall d f, In (d, f) items -> resolvesType schemaObject f) ->
  exists st', scan items st = Return st'.
Proof.
  revert st. induction items as [|[d f] items IH]; intros st Hres; simpl.
  - eauto.
  - assert (Hf : resolvesType schemaObject f) by (apply (Hres d); now left).
    unfold resolvesType in Hf.
    destruct (getType schemaObject (typeCondition_name_value f)) as [ty|] eqn:E;
      [|congruence].
    rewrite (process_resolved d st f E). simpl.
    apply IH. intros d' f' Hin. apply (Hres d'). now right.
Qed.

Lemma scan_cons_inv d f items st st' :
  scan ((d, f) :: items) st = Return st' ->
  exists st1, process d st f = Return st1 /\ scan items st1 = Return st'.
Proof.
  simpl. destruct (process d st f) as [st1|msg]; simpl; [|discriminate].
  intros H. exists st1. auto.
Qed.

Lemma first_unresolved_split items :
  (exists d f, In (d, f) items /\
     getType schemaObject (typeCondition_name_value f) = None) ->
  exists earlier d f later,
    items = earlier ++ (d, f) :: later /\
    (forall d' f', In (d', f') earlier -> resolvesType schemaObject f') /\
    getType schemaObject (typeCondition_name_value f) = None.
Proof.
  induction items as [|[d0 f0] items IH]; intros [d [f [Hin Hnone]]].
  - contradiction.
  - destruct (getType schemaObject (typeCondition_name_value f0)) as [ty|] eqn:E.
    + destruct Hin as [Heq|Hin]; [injection Heq as _ <-; congruence|].
      destruct IH as [earlier [d1 [f1 [later [Hsplit [Hres Hn1]]]]]];
        [exists d, f; auto|].
      exists ((d0, f0) :: earlier), d1, f1, later. rewrite Hsplit.
      split; [reflexivity|]. split; [|assumption].
      intros d' f' [Heq|Hin']; [|eauto].
      injection Heq as _ <-. unfold resolvesType. congruence.
    + exists [], d0, f0, items. split; [reflexivity|]. split; [intros ? ? []|assumption].
Qed.

(** *** What the scan leaves in the registry *)

Lemma scan_preserves_other items st st' n :
  scan items st = Return st' ->
  (forall d f, In (d, f) items -> name_value f <> n) ->
  JsObject.get n (prev st') = JsObject.get n (prev st).
Proof.
  revert st. induction items as [|[d f] items IH]; intros st Hscan Hother.
  - simpl in Hscan. now inversion Hscan.
  - apply scan_cons_inv in Hscan. destruct Hscan as [st1 [Hp Hs]].
    apply process_inv in Hp. destruct Hp as [ty [_ [Hprev _]]].
    rewrite (IH st1 Hs); [|intros d' f' Hin; apply (Hother d'); now right].
    rewrite Hprev. apply jsobject_get_set_neq. apply (Hother d). now left.
Qed.

Lemma scan_last_definition earlier d f later st st' :
  scan (earlier ++ (d, f) :: later) st = Return st' ->
  (forall d' f', In (d', f') later -> name_value f' <> name_value f) ->
  exists schemaType,
    getType schemaObject (typeCondition_name_value f) = Some schemaType /\
    JsObject.get (name_value f) (prev st') = Some (entryFor d schemaType f).
Proof.
  rewrite scan_app. intros Hscan Hlater.
  destruct (scan earlier st) as [st0|msg]; simpl in Hscan; [|discriminate].
  apply scan_cons_inv in Hscan. destruct Hscan as [st1 [Hp Hs]].
  apply process_inv in Hp. destruct Hp as [ty [Hty [Hprev _]]].
  exists ty. split; [assumption|].
  rewrite (@scan_preserves_other later st1 st' (name_value f) Hs Hlater), Hprev.
  apply jsobject_get_set_eq.
Qed.

(** *** What the scan leaves in the conflict list *)

Lemma scan_duplicates_grow items st st' n :
  scan items st = Return st' ->
  In n (duplicateFragmentNames st) -> In n (duplicateFragmentNames st').
Proof.
  revert st. induction items as [|[d f] items IH]; intros st Hscan Hin.
  - simpl in Hscan. now inversion Hscan; subst.
  - apply scan_cons_inv in Hscan. destruct Hscan as [st1 [Hp Hs]].
    apply (IH st1 Hs).
    apply process_inv in Hp. destruct Hp as [ty [_ [_ Hdup]]]. rewrite Hdup.
    destruct (isConflict print (prev st) f); [apply in_or_app; now left | assumption].
Qed.

Lemma scan_without_conflict items st st' :
  scan items st = Return st' ->
  (forall d f existing, In (d, f) items ->
     JsObject.get (name_value f) (prev st) = Some existing ->
     print f = print (node existing)) ->
  (forall d1 f1 d2 f2, In (d1, f1) items -> In (d2, f2) items ->
     name_value f1 = name_value f2 -> print f1 = print f2) ->
  duplicateFragmentNames st' = duplicateFragmentNames st.
Proof.
  revert st. induction items as [|[d f] items IH]; intros st Hscan Hstored Hpair.
  - simpl in Hscan. now inversion Hscan; subst.
  - apply scan_cons_inv in Hscan. destruct Hscan as [st1 [Hp Hs]].
    apply process_inv in Hp. destruct Hp as [ty [_ [Hprev Hdup]]].
    assert (Hnc : isConflict print (prev st) f = false).
    { unfold isConflict.
      destruct (JsObject.get (name_value f) (prev st)) as [e|] eqn:E; [|reflexivity].
      apply negb_false_iff, String.eqb_eq. apply (Hstored d); [now left | assumption]. }
    rewrite Hnc in Hdup. rewrite <- Hdup.
    apply (IH st1 Hs).
    + intros d' f' e Hin Hget. rewrite Hprev in Hget.
      destruct (string_dec (name_value f) (name_value f')) as [Heq|Hne].
      * rewrite <- Heq, jsobject_get_set_eq in Hget. inversion Hget; subst; simpl.
        apply (Hpair d' f' d f); [now right | now left | congruence].
      * rewrite jsobject_get_set_neq in Hget by assumption.
        apply (Hstored d'); [now right | assumption].
    + intros d1 f1 d2 f2 H1 H2. apply (Hpair d1 f1 d2 f2); now right.
Qed.

(** Every name added to the conflict list is the name of a definition whose
    serialized form differs from the one stored before it. *)
Lemma scan_duplicates_sound items st st' n :
  scan items st = Return st' ->
  In n (duplicateFragmentNames st') ->
  In n (duplicateFragmentNames st) \/
  exists d g, In (d, g) items /\ name_value g = n /\
    ((exists existing, JsObject.get n (prev st) = Some existing /\
                       print g <> print (node existing))
     \/ (exists d' f, In (d', f) items /\ name_value f = n /\ print g <> print f)).
Proof.
  revert st. induction items as [|[d f] items IH]; intros st Hscan Hin.
  - simpl in Hscan. inversion Hscan; subst. now left.
  - apply scan_cons_inv in Hscan. destruct Hscan as [st1 [Hp Hs]].
    apply process_inv in Hp. destruct Hp as [ty [_ [Hprev Hdup]]].
    destruct (IH st1 Hs Hin) as [Hin1 | [d' [g [Hg [Hn Hcase]]]]].
    + rewrite Hdup in Hin1.
      destruct (isConflict print (prev st) f) eqn:Hc; [|now left].
      apply in_app_or in Hin1. destruct Hin1 as [Hin1|[Hin1|[]]]; [now left|].
      right. apply isConflict_true in Hc. destruct Hc as [e [Hget Hne]].
      exists d, f. split; [now left|]. split; [assumption|].
      left. exists e. subst n. auto.
    + right. exists d', g. split; [now right|]. split; [assumption|].
      destruct Hcase as [[e [Hget Hne]] | [d2 [f2 [H2 [Hn2 Hne]]]]].
      * rewrite Hprev in Hget.
        destruct (string_dec (name_value f) n) as [Heq|Hneq].
        -- rewrite <- Heq, jsobject_get_set_eq in Hget. inversion Hget as [He].
           rewrite <- He in Hne. simpl in Hne.
           right. exists d, f. split; [now left|]. auto.
        -- rewrite jsobject_get_set_neq in Hget by assumption.
           left. exists e. auto.
      * right. exists d2, f2. split; [now right|]. auto.
Qed.

(** A name that stays out of the conflict list has one serialized form
    throughout. *)
Lemma scan_duplicates_complete items st st' n :
  scan items st = Return st' ->
  ~ In n (duplicateFragmentNames st') ->
  exists p,
    (forall existing, JsObject.get n (prev st) = Some existing ->
                      print (node existing) = p) /\
    (forall d f, In (d, f) items -> name_value f = n -> print f = p).
Proof.
  revert st. induction items as [|[d f] items IH]; intros st Hscan Hnot.
  - exists (match JsObject.get n (prev st) with
            | Some e => print (node e)
            | None => EmptyString
            end).
    split; [intros e He; now rewrite He | intros ? ? []].
  - apply scan_cons_inv in Hscan. destruct Hscan as [st1 [Hp Hs]].
    destruct (IH st1 Hs Hnot) as [p [Hstored Hrest]].
    apply process_inv in Hp. destruct Hp as [ty [_ [Hprev Hdup]]].
    exists p. destruct (string_dec (name_value f) n) as [Heq|Hneq].
    + assert (Hf : print f = p).
      { specialize (Hstored (entryFor d ty f)). simpl in Hstored. apply Hstored.
        rewrite Hprev, <- Heq. apply jsobject_get_set_eq. }
      assert (Hnc : isConflict print (prev st) f = false).
      { destruct (isConflict print (prev st) f) eqn:Hc; [|reflexivity].
        exfalso. apply Hnot. apply (@scan_duplicates_grow items st1 st' n Hs).
        rewrite Hdup. apply in_or_app. right. now left. }
      split.
      * intros e He. rewrite <- Heq in He.
        rewrite <- (@isConflict_false st f e Hnc He). assumption.
      * intros d' f' [Hin|Hin] Hn; [|eauto].
        injection Hin as _ Hff. now rewrite <- Hff.
    + split.
      * intros e He. apply Hstored. rewrite Hprev.
        now rewrite jsobject_get_set_neq by assumption.
      * intros d' f' [Hin|Hin] Hn; [|eauto].
        injection Hin as _ Hff. rewrite <- Hff in Hn. contradiction.
Qed.

(** *** The build as a whole *)

Local Abbreviation items := (scanItems (documents presetOptions)).
Local Abbreviation visitor := (baseVisitor newBaseVisitor presetOptions).

Lemma build_scan :
  build
  = (st <- scan items {| prev := JsObject.empty; duplicateFragmentNames := [] |} ;;
     if negb (Nat.eqb (length (duplicateFragmentNames st)) 0)
     then Throw (duplicateFragmentsMessage (duplicateFragmentNames st))
     else Return (prev st)).
Proof. unfold buildFragmentRegistry. now rewrite reduceDocuments_scan. Qed.

(** C1, as amended.  When no fragment bears the name of a member of
    [Object.prototype], every type condition resolves and the definitions
    sharing a name all have the same serialized form, the build returns a
    registry, and the registry maps each defined name to the entry computed
    from the last definition of that name in scan order: its file path is
    the one generated for the last document defining it. *)
Theorem identical_duplicates_keep_last_entry :
  plainFragmentNames items ->
  (forall d f, In (d, f) items -> resolvesType schemaObject f) ->
  (forall d1 f1 d2 f2, In (d1, f1) items -> In (d2, f2) items ->
     name_value f1 = name_value f2 -> print f1 = print f2) ->
  exists registry,
    build = Return registry /\
    forall earlier d f later,
      items = earlier ++ (d, f) :: later ->
      (forall d' f', In (d', f') later -> name_value f' <> name_value f) ->
      exists schemaType,
        getType schemaObject (typeCondition_name_value f) = Some schemaType /\
        JsObject.get (name_value f) registry = Some (entryFor d schemaType f).
Proof.
  intros _ Hres Hsame. rewrite build_scan.
  destruct (scan_returns items {| prev := JsObject.empty; duplicateFragmentNames := [] |} Hres)
    as [st' Hscan].
  rewrite Hscan. simpl bind.
  assert (Hdup : duplicateFragmentNames st' = []).
  { apply (scan_without_conflict items _ Hscan).
    - intros d f e _ Hget. simpl in Hget. discriminate.
    - exact Hsame. }
  rewrite Hdup. simpl. exists (prev st'). split; [reflexivity|].
  intros earlier d f later Hsplit Hlater.
  rewrite Hsplit in Hscan.
  exact (scan_last_definition earlier d f later _ Hscan Hlater).
Qed.

(** C3, as amended.  When no fragment bears the name of a member of
    [Object.prototype], every type condition resolves and some name is
    defined with two different serialized forms, the scan runs over the
    whole document set and the build then fails with the single
    duplicate-fragments error, whose message joins with [", "] a list
    holding exactly the names that have two definitions with different
    serialized forms. *)
Theorem conflicting_duplicates_reported_together :
  plainFragmentNames items ->
  (forall d f, In (d, f) items -> resolvesType schemaObject f) ->
  (exists n, conflictingName print items n) ->
  exists names,
    build
    = Throw ("Multiple fragments with the name(s) " ++ quote
             ++ String.concat ", " names ++ quote ++ " were found.")%string /\
    names <> [] /\
    forall n, In n names <-> conflictingName print items n.
Proof.
  intros _ Hres [n0 Hn0]. rewrite build_scan.
  destruct (scan_returns items {| prev := JsObject.empty; duplicateFragmentNames := [] |} Hres)
    as [st' Hscan].
  rewrite Hscan. simpl bind.
  assert (Hiff : forall n, In n (duplicateFragmentNames st') <-> conflictingName print items n).
  { intros n. split.
    - intros Hin.
      destruct (scan_duplicates_sound items _ n Hscan Hin)
        as [[] | [d [g [Hg [Hn [[e [Hget _]] | [d' [f [Hf [Hfn Hne]]]]]]]]]].
      + simpl in Hget. discriminate.
      + exists d, g, d', f. auto.
    - intros [d1 [f1 [d2 [f2 [H1 [H2 [Hn1 [Hn2 Hne]]]]]]]].
      destruct (in_dec string_dec n (duplicateFragmentNames st')) as [Hin|Hnot];
        [assumption|].
      destruct (scan_duplicates_complete items _ n Hscan Hnot) as [p [_ Hall]].
      exfalso. apply Hne.
      rewrite (Hall d1 f1 H1 Hn1), (Hall d2 f2 H2 Hn2). reflexivity. }
  assert (Hne : duplicateFragmentNames st' <> []).
  { intros Hnil. apply Hiff in Hn0. rewrite Hnil in Hn0. contradiction. }
  exists (duplicateFragmentNames st'). split; [|split; assumption].
  destruct (duplicateFragmentNames st'); [congruence | reflexivity].
Qed.

(** C4.  When the document set holds a fragment whose type condition does
    not resolve, the build fails at the first such fragment in
    document-then-definition order, with the error naming that fragment and
    the missing type.  The scan stops there: whatever follows that fragment,
    the outcome is this error, and a registry is not returned. *)
Theorem unknown_type_aborts_at_first_occurrence :
  (exists d f, In (d, f) items /\
     getType schemaObject (typeCondition_name_value f) = None) ->
  exists earlier d f later,
    items = earlier ++ (d, f) :: later /\
    (forall d' f', In (d', f') earlier -> resolvesType schemaObject f') /\
    getType schemaObject (typeCondition_name_value f) = None /\
    build
    = Throw ("Fragment " ++ quote ++ name_value f ++ quote
             ++ " is set on non-existing type "
             ++ quote ++ typeCondition_name_value f ++ quote ++ "!")%string /\
    forall st later',
      scan (earlier ++ (d, f) :: later') st
      = Throw ("Fragment " ++ quote ++ name_value f ++ quote
               ++ " is set on non-existing type "
               ++ quote ++ typeCondition_name_value f ++ quote ++ "!")%string.
Proof.
  intros Hex.
  destruct (first_unresolved_split items Hex)
    as [earlier [d [f [later [Hsplit [Hres Hnone]]]]]].
  exists earlier, d, f, later.
  split; [assumption|]. split; [assumption|]. split; [assumption|]. split.
  - rewrite build_scan, Hsplit.
    now rewrite (scan_unknown_type earlier d f later _ Hres Hnone).
  - intros st later'. exact (scan_unknown_type earlier d f later' st Hres Hnone).
Qed.

(** C5.  For a fragment the scan processes, the import names stored in the
    registry are the document-variable names followed by the
    type-specialized names; the latter are one name without type qualifier
    for exactly one possible type, one name per possible type, qualified
    by the type's name and in enumeration order, for more than one, and
    none for zero possible types. *)
Theorem type_specialized_names_by_cardinality d st f schemaType :
  getType schemaObject (typeCondition_name_value f) = Some schemaType ->
  let possibleTypes := map objectTypeName (getPossibleTypes schemaObject schemaType) in
  let fragmentSuffix := getFragmentSuffix visitor (name_value f) in
  exists st' entry typeSpecialized,
    process d st f = Return st' /\
    JsObject.get (name_value f) (prev st') = Some entry /\
    importNames entry
    = documentVariableNames visitor (config presetOptions) (plugins presetOptions)
        (name_value f) ++ typeSpecialized /\
    (length possibleTypes = 1 ->
     typeSpecialized
     = [convertName visitor (name_value f)
          {| useTypesPrefix := true; suffix := fragmentSuffix |}]) /\
    (1 < length possibleTypes ->
     typeSpecialized
     = map (fun typeName =>
              convertName visitor (name_value f)
                {| useTypesPrefix := true;
                   suffix := ("_" ++ typeName ++ "_" ++ fragmentSuffix)%string |})
           possibleTypes) /\
    (length possibleTypes = 0 -> typeSpecialized = []).
Proof.
  intros Hty possibleTypes fragmentSuffix.
  exists {| prev := JsObject.set (name_value f) (entryFor d schemaType f) (prev st);
            duplicateFragmentNames :=
              if isConflict print (prev st) f
              then duplicateFragmentNames st ++ [name_value f]
              else duplicateFragmentNames st |},
    (entryFor d schemaType f),
    (typeSpecializedNames visitor possibleTypes (name_value f)).
  split; [apply (process_resolved d st f Hty)|].
  split; [apply jsobject_get_set_eq|].
  split; [apply getAllFragmentSubTypes_split|].
  unfold typeSpecializedNames. subst fragmentSuffix.
  destruct possibleTypes as [|t1 [|t2 rest]]; simpl length;
    repeat split; intros Hlen; try reflexivity; try discriminate; try lia.
Qed.

(** C6.  For a fragment the scan processes, the stored import names start
    with the document-variable name, ahead of the type-specialized names,
    when the configuration has a plugin with the document-value capability
    and the document mode is none of the node-based or external modes;
    otherwise they are the type-specialized names alone. *)
Theorem document_variable_name_by_capability_and_mode d st f schemaType :
  getType schemaObject (typeCondition_name_value f) = Some schemaType ->
  let possibleTypes := map objectTypeName (getPossibleTypes schemaObject schemaType) in
  let capable :=
    exists pluginRecord,
      In pluginRecord (plugins presetOptions) /\ hasDocumentValueCapability pluginRecord in
  exists st' entry,
    process d st f = Return st' /\
    JsObject.get (name_value f) (prev st') = Some entry /\
    (capable /\ ~ nodeBasedOrExternalMode (config presetOptions) ->
     importNames entry
     = getFragmentVariableName visitor (name_value f)
       :: typeSpecializedNames visitor possibleTypes (name_value f)) /\
    (~ (capable /\ ~ nodeBasedOrExternalMode (config presetOptions)) ->
     importNames entry = typeSpecializedNames visitor possibleTypes (name_value f)).
Proof.
  intros Hty possibleTypes capable.
  exists {| prev := JsObject.set (name_value f) (entryFor d schemaType f) (prev st);
            duplicateFragmentNames :=
              if isConflict print (prev st) f
              then duplicateFragmentNames st ++ [name_value f]
              else duplicateFragmentNames st |},
    (entryFor d schemaType f).
  split; [apply (process_resolved d st f Hty)|].
  split; [apply jsobject_get_set_eq|].
  simpl importNames. rewrite getAllFragmentSubTypes_split. split.
  - intros [Hcap Hmode].
    rewrite documentVariableNames_on; [reflexivity | exact Hcap | exact Hmode].
  - intros Hnot.
    rewrite documentVariableNames_off; [reflexivity | exact Hnot].
Qed.
End BuilderFacts.

(** ** The planner *)

Section PlannerFacts.
Variable fragmentRegistry : FragmentRegistry.

Local Abbreviation step := (planFragment fragmentRegistry).

Implicit Types (st : PlanState) (groups : JsObject.t JsSet.t)
  (fragmentsInUse : list (string * nat)) (e : FragmentRegistryEntry).

(** *** The references *)

Lemma plan_collected fragmentsInUse st :
  collectedFragments (fold_left step fragmentsInUse st)
  = collectedFragments st ++ referencesInOrder fragmentRegistry fragmentsInUse.
Proof.
  revert st. induction fragmentsInUse as [|[n lvl] rest IH]; intros st; simpl.
  - now rewrite app_nil_r.
  - rewrite IH. unfold loadedFragmentOf. simpl.
    destruct (JsObject.get n fragmentRegistry) as [e|]; simpl; [|reflexivity].
    now rewrite <- app_assoc.
Qed.

Lemma references_registered fragmentsInUse reference :
  In reference (referencesInOrder fragmentRegistry fragmentsInUse) ->
  isRegistered fragmentRegistry (name reference) = true.
Proof.
  induction fragmentsInUse as [|[n lvl] rest IH]; simpl; [intros []|].
  unfold loadedFragmentOf, isRegistered in *. simpl.
  destruct (JsObject.get n fragmentRegistry) as [e|] eqn:E; [|assumption].
  intros [<-|Hin]; [simpl; now rewrite E | auto].
Qed.

Lemma references_names fragmentsInUse :
  map name (referencesInOrder fragmentRegistry fragmentsInUse)
  = filter (isRegistered fragmentRegistry) (map fst fragmentsInUse).
Proof.
  induction fragmentsInUse as [|[n lvl] rest IH]; simpl; [reflexivity|].
  unfold loadedFragmentOf, isRegistered in *. simpl.
  destruct (JsObject.get n fragmentRegistry) as [e|]; simpl; now rewrite IH.
Qed.

Lemma references_in fragmentsInUse n lvl e :
  In (n, lvl) fragmentsInUse ->
  JsObject.get n fragmentRegistry = Some e ->
  In {| level := lvl; isExternal := true; name := n;
        loadedOnType := onType e; loadedNode := node e |}
     (referencesInOrder fragmentRegistry fragmentsInUse).
Proof.
  intros Hin Hget. induction fragmentsInUse as [|[n0 lvl0] rest IH]; simpl;
    [contradiction|].
  unfold loadedFragmentOf. simpl. destruct Hin as [Heq|Hin].
  - injection Heq as -> ->. rewrite Hget. now left.
  - destruct (JsObject.get n0 fragmentRegistry); [right|]; auto.
Qed.

(** *** Removing an unregistered name *)

Lemma plan_without_unregistered fragmentsInUse st n :
  JsObject.get n fragmentRegistry = None ->
  fold_left step (withoutName n fragmentsInUse) st = fold_left step fragmentsInUse st.
Proof.
  intros Hnone. revert st.
  induction fragmentsInUse as [|[n0 lvl] rest IH]; intros st; simpl; [reflexivity|].
  destruct (String.eqb_spec n0 n) as [->|Hne]; simpl.
  - rewrite Hnone. apply IH.
  - apply IH.
Qed.

(** *** The import groups *)

Lemma addTopLevelImports_zero e groups :
  exists newSet,
    addTopLevelImports e 0 groups = JsObject.set (filePath e) newSet groups /\
    (wellFormedGroups groups -> NoDup newSet) /\
    forall s, In s newSet <-> inGroup groups (filePath e) s \/ In s (importNames e).
Proof.
  unfold addTopLevelImports, inGroup. simpl.
  destruct (JsObject.get (filePath e) groups) as [old|] eqn:E.
  - exists (fold_left JsSet.add (importNames e) old). split; [reflexivity|]. split.
    + intros [_ Hsets]. apply jsset_fold_add_nodup. now apply (Hsets (filePath e)).
    + intros s. rewrite jsset_in_fold_add. split.
      * intros [H|H]; [left; exists old; auto | now right].
      * intros [[symbols [Hs Hin]]|H]; [left; congruence | now right].
  - exists (JsSet.ofList (importNames e)). split; [reflexivity|]. split.
    + intros _. apply jsset_ofList_nodup.
    + intros s. rewrite jsset_in_ofList. split.
      * now right.
      * intros [[symbols [Hs _]]|H]; [discriminate | assumption].
Qed.

Lemma set_group_wellFormed groups p newSet :
  wellFormedGroups groups -> NoDup newSet ->
  wellFormedGroups (JsObject.set p newSet groups).
Proof.
  intros [Hkeys Hsets] Hnew. split.
  - now apply jsobject_keys_set_nodup.
  - intros q symbols. destruct (string_dec p q) as [<-|Hne].
    + rewrite jsobject_get_set_eq. intros H. injection H as <-. assumption.
    + rewrite jsobject_get_set_neq by assumption. apply Hsets.
Qed.

Lemma addTopLevelImports_spec e lvl groups :
  wellFormedGroups groups ->
  wellFormedGroups (addTopLevelImports e lvl groups) /\
  (forall p, In p (JsObject.keys (addTopLevelImports e lvl groups))
             <-> In p (JsObject.keys groups) \/ (lvl = 0 /\ filePath e = p)) /\
  (forall p s, inGroup (addTopLevelImports e lvl groups) p s
               <-> inGroup groups p s
                   \/ (lvl = 0 /\ filePath e = p /\ In s (importNames e))).
Proof.
  intros Hwf. destruct lvl as [|lvl].
  - destruct (addTopLevelImports_zero e groups) as [newSet [-> [Hnd Hin]]].
    split; [apply set_group_wellFormed; auto|]. split.
    + intros p. rewrite jsobject_keys_set. intuition.
    + intros p s. unfold inGroup at 1.
      destruct (string_dec (filePath e) p) as [<-|Hne].
      * rewrite jsobject_get_set_eq. split.
        -- intros [symbols [Heq Hs]]. injection Heq as <-.
           apply Hin in Hs. intuition.
        -- intros H. exists newSet. split; [reflexivity|]. apply Hin. intuition.
      * rewrite jsobject_get_set_neq by assumption. unfold inGroup. intuition.
  - unfold addTopLevelImports. simpl. split; [assumption|].
    split; intros; intuition discriminate.
Qed.

Lemma importsFrom_cons n lvl rest p :
  importsFrom fragmentRegistry ((n, lvl) :: rest) p
  <-> (exists e, JsObject.get n fragmentRegistry = Some e /\ lvl = 0 /\ filePath e = p)
      \/ importsFrom fragmentRegistry rest p.
Proof.
  unfold importsFrom. simpl. split.
  - intros [n' [e [[Heq|Hin] [Hget Hp]]]].
    + injection Heq as -> ->. left. exists e. auto.
    + right. exists n', e. auto.
  - intros [[e [Hget [-> Hp]]] | [n' [e [Hin [Hget Hp]]]]].
    + exists n, e. auto.
    + exists n', e. auto.
Qed.

Lemma contributes_cons n lvl rest p s :
  contributes fragmentRegistry ((n, lvl) :: rest) p s
  <-> (exists e, JsObject.get n fragmentRegistry = Some e /\ lvl = 0 /\ filePath e = p
                 /\ In s (importNames e))
      \/ contributes fragmentRegistry rest p s.
Proof.
  unfold contributes. simpl. split.
  - intros [n' [e [[Heq|Hin] [Hget [Hp Hs]]]]].
    + injection Heq as -> ->. left. exists e. auto.
    + right. exists n', e. auto.
  - intros [[e [Hget [-> [Hp Hs]]]] | [n' [e [Hin [Hget [Hp Hs]]]]]].
    + exists n, e. auto.
    + exists n', e. auto.
Qed.

Lemma plan_groups fragmentsInUse st :
  wellFormedGroups (fragmentFileImports st) ->
  let groups := fragmentFileImports (fold_left step fragmentsInUse st) in
  wellFormedGroups groups /\
  (forall p, In p (JsObject.keys groups)
             <-> In p (JsObject.keys (fragmentFileImports st))
                 \/ importsFrom fragmentRegistry fragmentsInUse p) /\
  (forall p s, inGroup groups p s
               <-> inGroup (fragmentFileImports st) p s
                   \/ contributes fragmentRegistry fragmentsInUse p s).
Proof.
  revert st. induction fragmentsInUse as [|[n lvl] rest IH]; intros st Hwf; simpl.
  - split; [assumption|]. split.
    + intros p. split; [now left | intros [H|[? [? [[] _]]]]; assumption].
    + intros p s. split; [now left | intros [H|[? [? [[] _]]]]; assumption].
  - destruct (JsObject.get n fragmentRegistry) as [e|] eqn:E.
    + destruct (addTopLevelImports_spec e lvl Hwf) as [Hwf1 [Hkeys1 Hin1]].
      match goal with
      | |- context [fold_left _ rest ?s] => specialize (IH s)
      end.
      simpl in IH. destruct (IH Hwf1) as [Hwf' [Hkeys' Hin']].
      split; [assumption|]. split.
      * intros p. rewrite Hkeys', Hkeys1, importsFrom_cons. split.
        -- intros [[H|[Hl Hp]]|H]; [now left | | now right; right].
           right. left. exists e. auto.
        -- intros [H|[[e' [He' [Hl Hp]]]|H]]; [now left; left | | now right].
           left. right. rewrite E in He'. injection He' as <-. auto.
      * intros p s. rewrite Hin', Hin1, contributes_cons. split.
        -- intros [[H|[Hl [Hp Hs]]]|H]; [now left | | now right; right].
           right. left. exists e. auto.
        -- intros [H|[[e' [He' [Hl [Hp Hs]]]]|H]]; [now left; left | | now right].
           left. right. rewrite E in He'. injection He' as <-. auto.
    + destruct (IH st Hwf) as [Hwf' [Hkeys' Hin']].
      split; [assumption|]. split.
      * intros p. rewrite Hkeys', importsFrom_cons. split.
        -- intros [H|H]; [now left | now right; right].
        -- intros [H|[[e' [He' _]]|H]]; [now left | congruence | now right].
      * intros p s. rewrite Hin', contributes_cons. split.
        -- intros [H|H]; [now left | now right; right].
        -- intros [H|[[e' [He' _]]|H]]; [now left | congruence | now right].
Qed.

Lemma plan_groups_direct_only fragmentsInUse st st' :
  fragmentFileImports st = fragmentFileImports st' ->
  fragmentFileImports (fold_left step fragmentsInUse st)
  = fragmentFileImports (fold_left step (directOnly fragmentsInUse) st').
Proof.
  revert st st'. induction fragmentsInUse as [|[n lvl] rest IH]; intros st st' Heq;
    simpl; [assumption|].
  destruct lvl as [|lvl]; simpl.
  - apply IH. destruct (JsObject.get n fragmentRegistry); simpl; congruence.
  - apply IH. destruct (JsObject.get n fragmentRegistry); simpl; assumption.
Qed.

Lemma planFragments_groups fragmentsInUse :
  let groups := fragmentFileImports (planFragments fragmentRegistry fragmentsInUse) in
  wellFormedGroups groups /\
  (forall p, In p (JsObject.keys groups) <-> importsFrom fragmentRegistry fragmentsInUse p) /\
  (forall p symbols, In (p, symbols) groups ->
     NoDup symbols /\
     forall s, In s symbols <-> contributes fragmentRegistry fragmentsInUse p s).
Proof.
  unfold planFragments.
  set (st0 := {| collectedFragments := []; fragmentFileImports := JsObject.empty |}).
  assert (Hwf0 : wellFormedGroups (fragmentFileImports st0)).
  { split; [constructor | intros p symbols H; discriminate]. }
  destruct (plan_groups fragmentsInUse st0 Hwf0) as [Hwf [Hkeys Hin]].
  simpl. split; [assumption|]. split.
  - intros p. rewrite Hkeys. simpl. intuition.
  - intros p symbols Hmem. destruct Hwf as [Hnodup Hsets].
    pose proof (jsobject_in_get p symbols _ Hnodup Hmem) as Hget.
    split; [now apply (Hsets p)|].
    intros s. split.
    + intros Hs.
      destruct (proj1 (Hin p s)) as [[x [Hx _]]|Hc];
        [exists symbols; auto | discriminate | assumption].
    + intros Hc.
      destruct (proj2 (Hin p s) (or_intror Hc)) as [symbols' [Hget' Hs]].
      congruence.
Qed.
End PlannerFacts.

Section PlannerTheorems.
Variable extractExternalFragmentsInUse :
  DocumentNode -> FragmentRegistry -> list (string * nat).
Variable fragmentRegistry : FragmentRegistry.
Variable baseOutputDir : string.
Variable generateImportStatement : ImportStatementArgs -> string.

Local Abbreviation resolve :=
  (resolveFragments extractExternalFragmentsInUse fragmentRegistry baseOutputDir
     generateImportStatement).
Local Abbreviation depthMap documentFileContent :=
  (extractExternalFragmentsInUse documentFileContent fragmentRegistry).

(** The call made for one import group. *)
Local Abbreviation callFor generatedFilePath groupPath symbols :=
  {| argBaseOutputDir := baseOutputDir;
     relativeOutputPath := generatedFilePath;
     importSource := {| path := groupPath; names := symbols |} |}.

Lemma importStatementCalls_map generatedFilePath (groups : JsObject.t JsSet.t) :
  importStatementCalls baseOutputDir generatedFilePath groups
  = map (fun group => callFor generatedFilePath (fst group) (snd group)) groups.
Proof.
  unfold importStatementCalls, JsObject.entries, JsSet.toList.
  apply map_ext. intros [p symbols]. reflexivity.
Qed.

Lemma filter_absent_key (V : Type) (o : JsObject.t V) (k : string) :
  ~ In k (JsObject.keys o) ->
  filter (fun entry : string * V => String.eqb (fst entry) k) o = [].
Proof.
  unfold JsObject.keys. induction o as [|[k0 v0] o IH]; simpl; intros Hnot;
    [reflexivity|].
  destruct (String.eqb_spec k0 k) as [->|Hne].
  - exfalso. apply Hnot. now left.
  - apply IH. intros Hin. apply Hnot. now right.
Qed.

Lemma filter_present_key (V : Type) (o : JsObject.t V) (k : string) (v : V) :
  NoDup (JsObject.keys o) ->
  In (k, v) o ->
  filter (fun entry : string * V => String.eqb (fst entry) k) o = [(k, v)].
Proof.
  unfold JsObject.keys. induction o as [|[k0 v0] o IH]; simpl; intros Hnd Hin;
    [contradiction|].
  inversion Hnd as [|? ? Hnotin Hnd']; subst.
  destruct Hin as [Heq|Hin].
  - injection Heq as -> ->. rewrite String.eqb_refl.
    rewrite filter_absent_key by exact Hnotin. reflexivity.
  - destruct (String.eqb_spec k0 k) as [->|Hne]; [|auto].
    exfalso. apply Hnotin. apply in_map_iff. exists (k, v). auto.
Qed.

Lemma filter_of_map (A B : Type) (g : A -> B) (test : B -> bool) (l : list A) :
  filter test (map g l) = map g (filter (fun a => test (g a)) l).
Proof.
  induction l as [|a l IH]; simpl; [reflexivity|].
  destruct (test (g a)); simpl; now rewrite IH.
Qed.

(** C7.  When the keys the planner reads are not members of
    [Object.prototype]: the import statements of a plan are rendered, in
    some order, from groups keyed by file path, each path once, and they are
    the statements of the plan for the depth map restricted to its pairs of
    depth 0.  Every registered fragment of depth 0 has the group of its file
    path, and all its import names are in it.  A group holds each symbol
    once, and holds exactly the import names of the registered fragments that
    the depth map has at depth 0 and whose entry has that file path.  A
    registered name at a depth above 0 is among the external fragments, and
    no group takes a symbol from it. *)
Theorem only_direct_fragments_are_imported generatedFilePath documentFileContent :
  let fragmentsInUse := depthMap documentFileContent in
  plainPlan fragmentRegistry fragmentsInUse ->
  let resolved := resolve generatedFilePath documentFileContent in
  exists groups : list (string * list string),
    Permutation (fragmentImportStatements resolved)
      (map (fun group =>
              generateImportStatement (callFor generatedFilePath (fst group) (snd group)))
           groups) /\
    fragmentImportStatements resolved
    = fragmentImportStatements
        (resolveFragments (fun _ _ => directOnly fragmentsInUse) fragmentRegistry
           baseOutputDir generateImportStatement generatedFilePath documentFileContent) /\
    NoDup (map fst groups) /\
    (forall fragmentName fragmentDetails,
       In (fragmentName, 0) fragmentsInUse ->
       JsObject.get fragmentName fragmentRegistry = Some fragmentDetails ->
       exists symbols,
         In (filePath fragmentDetails, symbols) groups /\
         incl (importNames fragmentDetails) symbols) /\
    (forall groupPath symbols,
       In (groupPath, symbols) groups ->
       NoDup symbols /\
       forall symbol,
         In symbol symbols
         <-> contributes fragmentRegistry fragmentsInUse groupPath symbol) /\
    (forall fragmentName depth fragmentDetails,
       In (fragmentName, depth) fragmentsInUse ->
       0 < depth ->
       JsObject.get fragmentName fragmentRegistry = Some fragmentDetails ->
       In {| level := depth; isExternal := true; name := fragmentName;
             loadedOnType := onType fragmentDetails;
             loadedNode := node fragmentDetails |}
          (externalFragments resolved)).
Proof.
  intros fragmentsInUse _ resolved.
  destruct (planFragments_groups fragmentRegistry fragmentsInUse)
    as [[Hnodup _] [Hkeys Hgroups]].
  exists (fragmentFileImports (planFragments fragmentRegistry fragmentsInUse)).
  split; [|split; [|split; [exact Hnodup | split; [|split; [exact Hgroups|]]]]].
  - subst resolved. unfold resolveFragments. simpl.
    rewrite importStatementCalls_map, map_map. apply Permutation_refl.
  - subst resolved. unfold resolveFragments. simpl. do 2 f_equal.
    unfold planFragments. now apply plan_groups_direct_only.
  - intros n e Hin Hget.
    assert (Hkey : In (filePath e)
                     (JsObject.keys
                        (fragmentFileImports
                           (planFragments fragmentRegistry fragmentsInUse)))).
    { apply Hkeys. exists n, e. auto. }
    unfold JsObject.keys in Hkey. apply in_map_iff in Hkey.
    destruct Hkey as [[p symbols] [Hp Hmem]]. simpl in Hp. subst p.
    exists symbols. split; [exact Hmem|].
    intros symbol Hsymbol. apply (Hgroups _ _ Hmem). exists n, e. auto.
  - intros n lvl e Hin _ Hget. subst resolved. unfold resolveFragments. simpl.
    unfold planFragments. rewrite plan_collected. simpl.
    now apply references_in.
Qed.

(** C8.  When the keys the planner reads are not members of
    [Object.prototype], a name of the depth map that the registry lacks is
    skipped: the planner returns, without an error, the plan it returns for
    the depth map without that name, and no external fragment carries the
    name. *)
Theorem unregistered_names_are_skipped generatedFilePath documentFileContent
    fragmentName depth :
  plainPlan fragmentRegistry (depthMap documentFileContent) ->
  In (fragmentName, depth) (depthMap documentFileContent) ->
  JsObject.get fragmentName fragmentRegistry = None ->
  let resolved := resolve generatedFilePath documentFileContent in
  let kept :=
    planFragments fragmentRegistry
      (withoutName fragmentName (depthMap documentFileContent)) in
  externalFragments resolved = collectedFragments kept /\
  fragmentImportStatements resolved
  = map generateImportStatement
      (importStatementCalls baseOutputDir generatedFilePath (fragmentFileImports kept)) /\
  (forall reference,
     In reference (externalFragments resolved) -> name reference <> fragmentName).
Proof.
  intros _ _ Hnone resolved kept. subst resolved kept.
  unfold resolveFragments, planFragments. simpl.
  rewrite (plan_without_unregistered fragmentRegistry _ _ fragmentName Hnone).
  split; [reflexivity|]. split; [reflexivity|].
  intros reference Hin Hname. rewrite plan_collected in Hin. simpl in Hin.
  apply references_registered in Hin. unfold isRegistered in Hin.
  rewrite Hname, Hnone in Hin. discriminate.
Qed.

(** C9.  When the keys the planner reads are not members of
    [Object.prototype], the external fragments of a plan are the depth map
    traversed in its iteration order, with one reference per registered name
    carrying the pair's depth, [isExternal] set, the name, and the entry's
    type condition and definition; their names are the registered names of
    the depth map in its order. *)
Theorem external_fragments_follow_depth_map generatedFilePath documentFileContent :
  let fragmentsInUse := depthMap documentFileContent in
  plainPlan fragmentRegistry fragmentsInUse ->
  let resolved := resolve generatedFilePath documentFileContent in
  externalFragments resolved = referencesInOrder fragmentRegistry fragmentsInUse /\
  map name (externalFragments resolved)
  = filter (isRegistered fragmentRegistry) (map fst fragmentsInUse).
Proof.
  intros fragmentsInUse _ resolved.
  assert (H : externalFragments resolved
              = referencesInOrder fragmentRegistry fragmentsInUse).
  { subst resolved. unfold resolveFragments, planFragments. simpl.
    now rewrite plan_collected. }
  split; [exact H|]. rewrite H. apply references_names.
Qed.

(** C10, as amended.  When the keys the planner reads are not members of
    [Object.prototype], a registered fragment at depth 0 opens an import
    group for its file path even when its import names are empty: the
    generator is called exactly once for that path and its statement is
    emitted.  The names passed are the import names of all registered
    fragments at depth 0 exported by that path; they are empty when all those
    fragments have empty import names. *)
Theorem empty_import_names_still_open_a_group generatedFilePath documentFileContent
    fragmentName fragmentDetails :
  let fragmentsInUse := depthMap documentFileContent in
  plainPlan fragmentRegistry fragmentsInUse ->
  In (fragmentName, 0) fragmentsInUse ->
  JsObject.get fragmentName fragmentRegistry = Some fragmentDetails ->
  importNames fragmentDetails = [] ->
  let resolved := resolve generatedFilePath documentFileContent in
  let calls :=
    importStatementCalls baseOutputDir generatedFilePath
      (fragmentFileImports (planFragments fragmentRegistry fragmentsInUse)) in
  exists symbols,
    Permutation (fragmentImportStatements resolved)
      (map generateImportStatement calls) /\
    filter (fun call => String.eqb (path (importSource call)) (filePath fragmentDetails))
      calls
    = [callFor generatedFilePath (filePath fragmentDetails) symbols] /\
    In (generateImportStatement
          (callFor generatedFilePath (filePath fragmentDetails) symbols))
       (fragmentImportStatements resolved) /\
    (forall symbol,
       In symbol symbols
       <-> contributes fragmentRegistry fragmentsInUse (filePath fragmentDetails) symbol) /\
    ((forall other otherDetails,
        In (other, 0) fragmentsInUse ->
        JsObject.get other fragmentRegistry = Some otherDetails ->
        filePath otherDetails = filePath fragmentDetails ->
        importNames otherDetails = []) ->
     symbols = []).
Proof.
  intros fragmentsInUse _ Hin Hget _ resolved calls.
  destruct (planFragments_groups fragmentRegistry fragmentsInUse)
    as [[Hnodup _] [Hkeys Hgroups]].
  set (groups := fragmentFileImports (planFragments fragmentRegistry fragmentsInUse)) in *.
  assert (Hkey : In (filePath fragmentDetails) (JsObject.keys groups)).
  { apply Hkeys. exists fragmentName, fragmentDetails. auto. }
  unfold JsObject.keys in Hkey. apply in_map_iff in Hkey.
  destruct Hkey as [[p symbols] [Hp Hmem]]. simpl in Hp. subst p.
  destruct (Hgroups _ _ Hmem) as [_ Hsymbols].
  assert (Hcalls : calls
                   = map (fun group => callFor generatedFilePath (fst group) (snd group))
                       groups).
  { subst calls. apply importStatementCalls_map. }
  exists symbols. split; [apply Permutation_refl|]. split; [|split; [|split]].
  - rewrite Hcalls, filter_of_map. simpl.
    erewrite filter_present_key by (exact Hnodup || exact Hmem). reflexivity.
  - subst resolved. unfold resolveFragments. simpl. apply in_map.
    fold fragmentsInUse. fold groups. fold calls. rewrite Hcalls.
    apply in_map_iff. exists (filePath fragmentDetails, symbols). auto.
  - exact Hsymbols.
  - intros Hempty. destruct symbols as [|s rest]; [reflexivity|].
    exfalso. destruct (proj1 (Hsymbols s) (or_introl eq_refl))
      as [other [otherDetails [Ho [Hgo [Hfp Hs]]]]].
    rewrite (Hempty other otherDetails Ho Hgo Hfp) in Hs. contradiction.
Qed.
End PlannerTheorems.

(** ** Scenarios *)

(** C1, counterexample.  Two documents define [fragment Dup on User {id}]
    with equal bodies.  The build returns a registry, but [Dup] is mapped to
    the entry of the second document, [B.generated], not to the first-seen
    entry of [A.generated]. *)
Lemma identical_duplicates_first_entry_is_overwritten :
  Sample.build Sample.identicalDuplicates []
  = Return [("Dup", {| filePath := "B.generated";
                       importNames := ["DupFragment"];
                       onType := "User";
                       node := Sample.dupId |})] /\
  ~ (exists registry,
       Sample.build Sample.identicalDuplicates [] = Return registry /\
       JsObject.get "Dup" registry
       = Some (registryEntry Sample.getPossibleTypes Sample.newBaseVisitor
                 Sample.collectorOptions (Sample.presetOf Sample.identicalDuplicates [])
                 Sample.userSchema
                 (Sample.fileOf "A.graphql" [FragmentDefinition Sample.dupId])
                 (Sample.ObjectType "User") Sample.dupId)).
Proof.
  split; [reflexivity|].
  intros [registry [Hbuild Hget]].
  vm_compute in Hbuild. injection Hbuild as <-.
  vm_compute in Hget. discriminate.
Qed.

(** The amended C1 on two documents defining the same [Dup]: the registry
    holds the entry of [B.generated]. *)
Lemma identical_duplicates_keep_last_entry_witness :
  plainFragmentNames (scanItems Sample.identicalDuplicates) /\
  (forall d f, In (d, f) (scanItems Sample.identicalDuplicates) ->
     resolvesType Sample.userSchema f) /\
  (forall d1 f1 d2 f2,
     In (d1, f1) (scanItems Sample.identicalDuplicates) ->
     In (d2, f2) (scanItems Sample.identicalDuplicates) ->
     name_value f1 = name_value f2 -> Sample.print f1 = Sample.print f2) /\
  exists registry entry,
    Sample.build Sample.identicalDuplicates [] = Return registry /\
    JsObject.get "Dup" registry = Some entry /\
    filePath entry = "B.generated".
Proof.
  assert (Hres : forall d f, In (d, f) (scanItems Sample.identicalDuplicates) ->
                   resolvesType Sample.userSchema f).
  { intros d f [H|[H|[]]]; injection H as _ <-; vm_compute; discriminate. }
  assert (Hsame : forall d1 f1 d2 f2,
                    In (d1, f1) (scanItems Sample.identicalDuplicates) ->
                    In (d2, f2) (scanItems Sample.identicalDuplicates) ->
                    name_value f1 = name_value f2 -> Sample.print f1 = Sample.print f2).
  { intros d1 f1 d2 f2 [H1|[H1|[]]] [H2|[H2|[]]] _;
      injection H1 as _ <-; injection H2 as _ <-; reflexivity. }
  assert (Hplain : plainFragmentNames (scanItems Sample.identicalDuplicates)).
  { intros d f [H|[H|[]]]; injection H as _ <-; reflexivity. }
  split; [exact Hplain|]. split; [exact Hres|]. split; [exact Hsame|].
  destruct (@identical_duplicates_keep_last_entry Sample.NamedType Sample.getPossibleTypes
              Sample.print Sample.newBaseVisitor Sample.collectorOptions
              (Sample.presetOf Sample.identicalDuplicates []) Sample.userSchema
              Hplain Hres Hsame) as [registry [Hbuild Hlast]].
  destruct (Hlast [(Sample.fileOf "A.graphql" [FragmentDefinition Sample.dupId], Sample.dupId)]
              (Sample.fileOf "B.graphql" [FragmentDefinition Sample.dupId]) Sample.dupId []
              eq_refl (fun d' f' (H : In (d', f') []) => match H with end))
    as [schemaType [Hty Hget]].
  exists registry, (registryEntry Sample.getPossibleTypes Sample.newBaseVisitor
                      Sample.collectorOptions (Sample.presetOf Sample.identicalDuplicates [])
                      Sample.userSchema
                      (Sample.fileOf "B.graphql" [FragmentDefinition Sample.dupId])
                      schemaType Sample.dupId).
  split; [exact Hbuild|]. split; [exact Hget | reflexivity].
Defined.

(** C3, counterexample.  [Dup] is defined twice with different bodies and a
    later fragment is set on a type the schema lacks: the scan stops there,
    and the error raised is the unknown-type error, not the error listing
    the conflicting names. *)
Lemma conflict_then_unknown_type_reports_the_type :
  conflictingName Sample.print (scanItems Sample.conflictThenUnknownType) "Dup" /\
  Sample.build Sample.conflictThenUnknownType []
  = Throw (unknownTypeMessage (Sample.fragmentOn "G" "Missing" ["id"])) /\
  ~ (exists names,
       Sample.build Sample.conflictThenUnknownType []
       = Throw (duplicateFragmentsMessage names)).
Proof.
  split; [|split].
  - exists (Sample.fileOf "A.graphql" [FragmentDefinition Sample.dupId]), Sample.dupId,
      (Sample.fileOf "B.graphql" [FragmentDefinition Sample.dupIdName]), Sample.dupIdName.
    split; [now left|]. split; [right; now left|].
    split; [reflexivity|]. split; [reflexivity|]. vm_compute. discriminate.
  - reflexivity.
  - intros [names H]. unfold duplicateFragmentsMessage in H.
    vm_compute in H. discriminate.
Qed.

(** The amended C3 on two documents in conflict on [Dup] and on [Other]: one
    error lists both names. *)
Lemma conflicting_duplicates_reported_together_witness :
  plainFragmentNames (scanItems Sample.twoConflicts) /\
  (forall d f, In (d, f) (scanItems Sample.twoConflicts) ->
     resolvesType Sample.userSchema f) /\
  (exists n, conflictingName Sample.print (scanItems Sample.twoConflicts) n) /\
  exists names,
    Sample.build Sample.twoConflicts []
    = Throw ("Multiple fragments with the name(s) " ++ quote
             ++ String.concat ", " names ++ quote ++ " were found.")%string /\
    In "Dup" names /\ In "Other" names.
Proof.
  assert (Hres : forall d f, In (d, f) (scanItems Sample.twoConflicts) ->
                   resolvesType Sample.userSchema f).
  { intros d f [H|[H|[H|[H|[]]]]]; injection H as _ <-; vm_compute; discriminate. }
  assert (Hdup : conflictingName Sample.print (scanItems Sample.twoConflicts) "Dup").
  { exists (nth 0 Sample.twoConflicts Sample.documentA), Sample.dupId,
      (nth 1 Sample.twoConflicts Sample.documentA), Sample.dupIdName.
    split; [now left|]. split; [right; right; now left|].
    split; [reflexivity|]. split; [reflexivity|]. vm_compute. discriminate. }
  assert (Hother : conflictingName Sample.print (scanItems Sample.twoConflicts) "Other").
  { exists (nth 0 Sample.twoConflicts Sample.documentA),
      (Sample.fragmentOn "Other" "Post" ["id"]),
      (nth 1 Sample.twoConflicts Sample.documentA),
      (Sample.fragmentOn "Other" "Post" ["title"]).
    split; [right; now left|]. split; [right; right; right; now left|].
    split; [reflexivity|]. split; [reflexivity|]. vm_compute. discriminate. }
  assert (Hplain : plainFragmentNames (scanItems Sample.twoConflicts)).
  { intros d f [H|[H|[H|[H|[]]]]]; injection H as _ <-; reflexivity. }
  split; [exact Hplain|]. split; [exact Hres|]. split; [exists "Dup"; exact Hdup|].
  destruct (@conflicting_duplicates_reported_together Sample.NamedType
              Sample.getPossibleTypes Sample.print Sample.newBaseVisitor
              Sample.collectorOptions (Sample.presetOf Sample.twoConflicts [])
              Sample.userSchema Hplain Hres (ex_intro _ "Dup" Hdup))
    as [names [Hbuild [_ Hiff]]].
  exists names. split; [exact Hbuild|].
  split; [exact (proj2 (Hiff "Dup") Hdup) | exact (proj2 (Hiff "Other") Hother)].
Defined.

(** C4 on a document set whose third fragment is set on a missing type. *)
Lemma unknown_type_aborts_at_first_occurrence_witness :
  (exists d f,
     In (d, f) (scanItems Sample.conflictThenUnknownType) /\
     getType Sample.userSchema (typeCondition_name_value f) = None) /\
  exists f,
    getType Sample.userSchema (typeCondition_name_value f) = None /\
    Sample.build Sample.conflictThenUnknownType []
    = Throw ("Fragment " ++ quote ++ name_value f ++ quote
             ++ " is set on non-existing type "
             ++ quote ++ typeCondition_name_value f ++ quote ++ "!")%string.
Proof.
  assert (Hex : exists d f,
            In (d, f) (scanItems Sample.conflictThenUnknownType) /\
            getType Sample.userSchema (typeCondition_name_value f) = None).
  { exists (nth 2 Sample.conflictThenUnknownType Sample.documentA),
      (Sample.fragmentOn "G" "Missing" ["id"]).
    split; [right; right; now left | reflexivity]. }
  split; [exact Hex|].
  destruct (@unknown_type_aborts_at_first_occurrence Sample.NamedType
              Sample.getPossibleTypes Sample.print Sample.newBaseVisitor
              Sample.collectorOptions (Sample.presetOf Sample.conflictThenUnknownType [])
              Sample.userSchema Hex)
    as [earlier [d [f [later [_ [_ [Hnone [Hbuild _]]]]]]]].
  exists f. split; [exact Hnone | exact Hbuild].
Defined.

(** C5 on a fragment set on an interface with three possible types. *)
Lemma type_specialized_names_by_cardinality_witness :
  getType Sample.userSchema "Node"
  = Some (Sample.InterfaceType "Node" ["User"; "Post"; "Comment"]) /\
  exists st' entry,
    processFragment Sample.getPossibleTypes Sample.print Sample.newBaseVisitor
      Sample.collectorOptions (Sample.presetOf [] []) Sample.userSchema
      (Sample.fileOf "A.graphql" [])
      {| prev := JsObject.empty; duplicateFragmentNames := [] |}
      (Sample.fragmentOn "N" "Node" ["id"])
    = Return st' /\
    JsObject.get "N" (prev st') = Some entry /\
    importNames entry = ["N_User_Fragment"; "N_Post_Fragment"; "N_Comment_Fragment"].
Proof.
  split; [reflexivity|].
  destruct (@type_specialized_names_by_cardinality Sample.NamedType
              Sample.getPossibleTypes Sample.print Sample.newBaseVisitor
              Sample.collectorOptions (Sample.presetOf [] []) Sample.userSchema
              (Sample.fileOf "A.graphql" [])
              {| prev := JsObject.empty; duplicateFragmentNames := [] |}
              (Sample.fragmentOn "N" "Node" ["id"])
              (Sample.InterfaceType "Node" ["User"; "Post"; "Comment"]) eq_refl)
    as [st' [entry [typeSpecialized [Hp [Hget [Hnames [_ [Hmany _]]]]]]]].
  exists st', entry. split; [exact Hp|]. split; [exact Hget|].
  rewrite Hnames, Hmany; [reflexivity | simpl; lia].
Defined.

(** C6 on a plugin key in mixed case under the [@graphql-codegen/] scope, in
    the default document mode. *)
Lemma document_variable_name_by_capability_and_mode_witness :
  getType Sample.userSchema "User" = Some (Sample.ObjectType "User") /\
  exists st' entry,
    processFragment Sample.getPossibleTypes Sample.print Sample.newBaseVisitor
      Sample.collectorOptions (Sample.presetOf [] ["@graphql-codegen/TypeScript-URQL"])
      Sample.userSchema (Sample.fileOf "A.graphql" [])
      {| prev := JsObject.empty; duplicateFragmentNames := [] |} Sample.fragmentF
    = Return st' /\
    JsObject.get "F" (prev st') = Some entry /\
    importNames entry = ["FFragmentDoc"; "FFragment"].
Proof.
  split; [reflexivity|].
  destruct (@document_variable_name_by_capability_and_mode Sample.NamedType
              Sample.getPossibleTypes Sample.print Sample.newBaseVisitor
              Sample.collectorOptions
              (Sample.presetOf [] ["@graphql-codegen/TypeScript-URQL"])
              Sample.userSchema (Sample.fileOf "A.graphql" [])
              {| prev := JsObject.empty; duplicateFragmentNames := [] |} Sample.fragmentF
              (Sample.ObjectType "User") eq_refl)
    as [st' [entry [Hp [Hget [Hon _]]]]].
  exists st', entry. split; [exact Hp|]. split; [exact Hget|].
  rewrite Hon; [reflexivity|]. split.
  - exists {| firstKey := "@graphql-codegen/TypeScript-URQL" |}. split; [now left|].
    exists "typescript-urql". split; [vm_compute; tauto | right; reflexivity].
  - unfold nodeBasedOrExternalMode. simpl. intros [H|[H|H]]; discriminate.
Defined.

(** The registry built from [A.graphql] holding the fragments [E], on an
    interface without implementors, and [G], on an object type. *)
Lemma shared_file_registry :
  Sample.build Sample.sharedFile []
  = Return [ ("E", {| filePath := "A.generated"; importNames := [];
                      onType := "Unimplemented"; node := Sample.fragmentE |});
             ("G", {| filePath := "A.generated"; importNames := ["GFragment"];
                      onType := "User"; node := Sample.fragmentG |}) ].
Proof. reflexivity. Qed.

(** C10, counterexample.  [E] has no import names and is spread directly,
    and so is [G], exported by the same file: the one call made for
    [A.generated] passes [GFragment], so no call for that path has an empty
    names sequence. *)
Lemma shared_file_group_is_not_empty :
  exists registry fragmentDetails,
    Sample.build Sample.sharedFile [] = Return registry /\
    In ("E", 0) (Sample.extractExternalFragmentsInUse Sample.queryEG registry) /\
    JsObject.get "E" registry = Some fragmentDetails /\
    importNames fragmentDetails = [] /\
    importStatementCalls "out" "B.generated"
      (fragmentFileImports
         (planFragments registry
            (Sample.extractExternalFragmentsInUse Sample.queryEG registry)))
    = [ {| argBaseOutputDir := "out";
           relativeOutputPath := "B.generated";
           importSource := {| path := "A.generated"; names := ["GFragment"] |} |} ] /\
    ~ (exists call,
         In call
            (importStatementCalls "out" "B.generated"
               (fragmentFileImports
                  (planFragments registry
                     (Sample.extractExternalFragmentsInUse Sample.queryEG registry)))) /\
         path (importSource call) = filePath fragmentDetails /\
         names (importSource call) = []).
Proof.
  eexists. eexists. split; [apply shared_file_registry|].
  split; [vm_compute; tauto|]. split; [reflexivity|]. split; [reflexivity|].
  split; [reflexivity|].
  intros [call [Hin [_ Hnames]]]. vm_compute in Hin.
  destruct Hin as [<-|[]]. discriminate.
Qed.

(** The amended C10 on a query spreading [E] alone: the one call for
    [A.generated] passes no names. *)
Lemma empty_import_names_still_open_a_group_witness :
  exists registry fragmentDetails,
    Sample.build Sample.sharedFile [] = Return registry /\
    plainPlan registry (Sample.extractExternalFragmentsInUse Sample.queryE registry) /\
    In ("E", 0) (Sample.extractExternalFragmentsInUse Sample.queryE registry) /\
    JsObject.get "E" registry = Some fragmentDetails /\
    importNames fragmentDetails = [] /\
    filter (fun call => String.eqb (path (importSource call)) "A.generated")
      (importStatementCalls "out" "B.generated"
         (fragmentFileImports
            (planFragments registry
               (Sample.extractExternalFragmentsInUse Sample.queryE registry))))
    = [ {| argBaseOutputDir := "out";
           relativeOutputPath := "B.generated";
           importSource := {| path := "A.generated"; names := [] |} |} ].
Proof.
  eexists. eexists. split; [apply shared_file_registry|].
  assert (Hin : In ("E", 0)
                  (Sample.extractExternalFragmentsInUse Sample.queryE
                     [ ("E", {| filePath := "A.generated"; importNames := [];
                                onType := "Unimplemented"; node := Sample.fragmentE |});
                       ("G", {| filePath := "A.generated"; importNames := ["GFragment"];
                                onType := "User"; node := Sample.fragmentG |}) ])).
  { vm_compute. tauto. }
  assert (Hplain : plainPlan
                     [ ("E", {| filePath := "A.generated"; importNames := [];
                                onType := "Unimplemented"; node := Sample.fragmentE |});
                       ("G", {| filePath := "A.generated"; importNames := ["GFragment"];
                                onType := "User"; node := Sample.fragmentG |}) ]
                     (Sample.extractExternalFragmentsInUse Sample.queryE
                        [ ("E", {| filePath := "A.generated"; importNames := [];
                                   onType := "Unimplemented"; node := Sample.fragmentE |});
                          ("G", {| filePath := "A.generated"; importNames := ["GFragment"];
                                   onType := "User"; node := Sample.fragmentG |}) ])).
  { split.
    - intros n depth H. vm_compute in H. destruct H as [H|[]].
      injection H as <- _. reflexivity.
    - intros n e H Hget. vm_compute in H. destruct H as [H|[]].
      injection H as <-. vm_compute in Hget. injection Hget as <-. reflexivity. }
  split; [exact Hplain|]. split; [exact Hin|].
  split; [reflexivity|]. split; [reflexivity|].
  destruct (@empty_import_names_still_open_a_group
              Sample.extractExternalFragmentsInUse _ "out" Sample.renderImportStatement
              "B.generated" Sample.queryE "E" _ Hplain Hin eq_refl eq_refl)
    as [symbols [_ [Hcall [_ [_ Hempty]]]]].
  rewrite Hempty in Hcall; [exact Hcall|].
  intros other otherDetails Hother Hget _.
  vm_compute in Hother. destruct Hother as [Heq|[]].
  injection Heq as <-. vm_compute in Hget. injection Hget as <-. reflexivity.
Defined.

(** C8 on a depth map holding the unregistered [Ghost] ahead of [F]. *)
Lemma unregistered_names_are_skipped_witness :
  plainPlan
    [("F", {| filePath := "A.generated"; importNames := ["FFragment"];
              onType := "User"; node := Sample.fragmentF |})]
    (Sample.reportEverySpread
       {| definitions :=
            [OperationDefinition "query" None
               [FragmentSpread "Ghost"; FragmentSpread "F"]] |}
       [("F", {| filePath := "A.generated"; importNames := ["FFragment"];
                 onType := "User"; node := Sample.fragmentF |})]) /\
  In ("Ghost", 0)
     (Sample.reportEverySpread
        {| definitions :=
             [OperationDefinition "query" None
                [FragmentSpread "Ghost"; FragmentSpread "F"]] |}
        [("F", {| filePath := "A.generated"; importNames := ["FFragment"];
                  onType := "User"; node := Sample.fragmentF |})]) /\
  JsObject.get "Ghost"
    [("F", {| filePath := "A.generated"; importNames := ["FFragment"];
              onType := "User"; node := Sample.fragmentF |})] = None /\
  resolveFragments Sample.reportEverySpread
    [("F", {| filePath := "A.generated"; importNames := ["FFragment"];
              onType := "User"; node := Sample.fragmentF |})]
    "out" Sample.renderImportStatement "B.generated"
    {| definitions :=
         [OperationDefinition "query" None
            [FragmentSpread "Ghost"; FragmentSpread "F"]] |}
  = {| externalFragments :=
         [ {| level := 0; isExternal := true; name := "F";
              loadedOnType := "User"; loadedNode := Sample.fragmentF |} ];
       fragmentImportStatements := ["import { FFragment } from './A.generated'"] |}.
Proof.
  assert (Hplain : plainPlan
            [("F", {| filePath := "A.generated"; importNames := ["FFragment"];
                      onType := "User"; node := Sample.fragmentF |})]
            (Sample.reportEverySpread
               {| definitions :=
                    [OperationDefinition "query" None
                       [FragmentSpread "Ghost"; FragmentSpread "F"]] |}
               [("F", {| filePath := "A.generated"; importNames := ["FFragment"];
                         onType := "User"; node := Sample.fragmentF |})])).
  { split.
    - intros n depth H. vm_compute in H. destruct H as [H|[H|[]]];
        injection H as <- _; reflexivity.
    - intros n e H Hget. vm_compute in H. destruct H as [H|[H|[]]];
        injection H as <-; vm_compute in Hget; [discriminate|].
      injection Hget as <-. reflexivity. }
  split; [exact Hplain|]. split; [now left|]. split; [reflexivity|].
  destruct (@unregistered_names_are_skipped Sample.reportEverySpread
              [("F", {| filePath := "A.generated"; importNames := ["FFragment"];
                        onType := "User"; node := Sample.fragmentF |})]
              "out" Sample.renderImportStatement "B.generated"
              {| definitions :=
                   [OperationDefinition "query" None
                      [FragmentSpread "Ghost"; FragmentSpread "F"]] |}
              "Ghost" 0 Hplain (or_introl eq_refl) eq_refl)
    as [Hext [Hstmts _]].
  match goal with
  | |- ?r = _ => destruct r as [ext stmts] eqn:E
  end.
  simpl in Hext, Hstmts. rewrite Hext, Hstmts. reflexivity.
Defined.

(** C7 on a query spreading [E] and [G], both exported by [A.generated]:
    the one group of that path holds [GFragment]. *)
Lemma only_direct_fragments_are_imported_witness :
  plainPlan
    [ ("E", {| filePath := "A.generated"; importNames := [];
               onType := "Unimplemented"; node := Sample.fragmentE |});
      ("G", {| filePath := "A.generated"; importNames := ["GFragment"];
               onType := "User"; node := Sample.fragmentG |}) ]
    [("E", 0); ("G", 0)] /\
  exists groups symbols,
    Permutation
      (fragmentImportStatements
         (resolveFragments (fun _ _ => [("E", 0); ("G", 0)])
            [ ("E", {| filePath := "A.generated"; importNames := [];
                       onType := "Unimplemented"; node := Sample.fragmentE |});
              ("G", {| filePath := "A.generated"; importNames := ["GFragment"];
                       onType := "User"; node := Sample.fragmentG |}) ]
            "out" Sample.renderImportStatement "B.generated" Sample.queryEG))
      (map (fun group =>
              Sample.renderImportStatement
                {| argBaseOutputDir := "out";
                   relativeOutputPath := "B.generated";
                   importSource := {| path := fst group; names := snd group |} |})
           groups) /\
    In ("A.generated", symbols) groups /\
    In "GFragment" symbols.
Proof.
  assert (Hplain : plainPlan
            [ ("E", {| filePath := "A.generated"; importNames := [];
                       onType := "Unimplemented"; node := Sample.fragmentE |});
              ("G", {| filePath := "A.generated"; importNames := ["GFragment"];
                       onType := "User"; node := Sample.fragmentG |}) ]
            [("E", 0); ("G", 0)]).
  { split.
    - intros n depth [H|[H|[]]]; injection H as <- _; reflexivity.
    - intros n e [H|[H|[]]] Hget; injection H as <-; vm_compute in Hget;
        injection Hget as <-; reflexivity. }
  split; [exact Hplain|].
  destruct (@only_direct_fragments_are_imported (fun _ _ => [("E", 0); ("G", 0)])
              [ ("E", {| filePath := "A.generated"; importNames := [];
                         onType := "Unimplemented"; node := Sample.fragmentE |});
                ("G", {| filePath := "A.generated"; importNames := ["GFragment"];
                         onType := "User"; node := Sample.fragmentG |}) ]
              "out" Sample.renderImportStatement "B.generated" Sample.queryEG Hplain)
    as [groups [Hperm [_ [_ [Hopen _]]]]].
  destruct (Hopen "G" _ (or_intror (or_introl eq_refl)) eq_refl)
    as [symbols [Hgroup Hincl]].
  exists groups, symbols. split; [exact Hperm|]. split; [exact Hgroup|].
  apply Hincl. now left.
Defined.

(** C9 on a depth map holding [G] at depth 1 ahead of [E] at depth 0. *)
Lemma external_fragments_follow_depth_map_witness :
  plainPlan
    [ ("E", {| filePath := "A.generated"; importNames := [];
               onType := "Unimplemented"; node := Sample.fragmentE |});
      ("G", {| filePath := "A.generated"; importNames := ["GFragment"];
               onType := "User"; node := Sample.fragmentG |}) ]
    [("G", 1); ("Ghost", 0); ("E", 0)] /\
  externalFragments
    (resolveFragments (fun _ _ => [("G", 1); ("Ghost", 0); ("E", 0)])
       [ ("E", {| filePath := "A.generated"; importNames := [];
                  onType := "Unimplemented"; node := Sample.fragmentE |});
         ("G", {| filePath := "A.generated"; importNames := ["GFragment"];
                  onType := "User"; node := Sample.fragmentG |}) ]
       "out" Sample.renderImportStatement "B.generated" Sample.queryEG)
  = [ {| level := 1; isExternal := true; name := "G";
         loadedOnType := "User"; loadedNode := Sample.fragmentG |};
      {| level := 0; isExternal := true; name := "E";
         loadedOnType := "Unimplemented"; loadedNode := Sample.fragmentE |} ].
Proof.
  assert (Hplain : plainPlan
            [ ("E", {| filePath := "A.generated"; importNames := [];
                       onType := "Unimplemented"; node := Sample.fragmentE |});
              ("G", {| filePath := "A.generated"; importNames := ["GFragment"];
                       onType := "User"; node := Sample.fragmentG |}) ]
            [("G", 1); ("Ghost", 0); ("E", 0)]).
  { split.
    - intros n depth [H|[H|[H|[]]]]; injection H as <- _; reflexivity.
    - intros n e [H|[H|[H|[]]]] Hget; try discriminate H;
        injection H as <-; vm_compute in Hget; try discriminate Hget;
        injection Hget as <-; reflexivity. }
  split; [exact Hplain|].
  destruct (@external_fragments_follow_depth_map
              (fun _ _ => [("G", 1); ("Ghost", 0); ("E", 0)])
              [ ("E", {| filePath := "A.generated"; importNames := [];
                         onType := "Unimplemented"; node := Sample.fragmentE |});
                ("G", {| filePath := "A.generated"; importNames := ["GFragment"];
                         onType := "User"; node := Sample.fragmentG |}) ]
              "out" Sample.renderImportStatement "B.generated" Sample.queryEG Hplain)
    as [Hext _].
  rewrite Hext. reflexivity.
Defined.

(** C2, counterexample.  With a document-value plugin the entry of [F] holds
    two import names, the document variable and the fragment type; without
    one it holds the fragment type alone.  In neither configuration are the
    import names exactly [FFragmentDoc]. *)
Lemma fragment_F_import_names_include_the_fragment_type :
  Sample.build [Sample.documentA; Sample.documentB] ["typescript-react-apollo"]
  = Return [("F", {| filePath := "A.generated";
                     importNames := ["FFragmentDoc"; "FFragment"];
                     onType := "User";
                     node := Sample.fragmentF |})] /\
  Sample.build [Sample.documentA; Sample.documentB] []
  = Return [("F", {| filePath := "A.generated";
                     importNames := ["FFragment"];
                     onType := "User";
                     node := Sample.fragmentF |})] /\
  ~ (exists plugins registry entry,
       (plugins = ["typescript-react-apollo"] \/ plugins = []) /\
       Sample.build [Sample.documentA; Sample.documentB] plugins = Return registry /\
       JsObject.get "F" registry = Some entry /\
       importNames entry = ["FFragmentDoc"]).
Proof.
  split; [reflexivity|]. split; [reflexivity|].
  intros [plugins [registry [entry [[->| ->] [Hbuild [Hget Hnames]]]]]];
    vm_compute in Hbuild; injection Hbuild as <-;
    vm_compute in Hget; injection Hget as <-; discriminate.
Qed.

(** C2, as amended.  Document [A.graphql] defines [fragment F on User {id}],
    document [B.graphql] holds [query Q { user { ...F } }], [User] is an
    object type, and a document-value plugin is configured in a mode that is
    neither node-based nor external.  Then the registry is the single entry
    [F] with file path [A.generated], import names [FFragmentDoc] and
    [FFragment], and type [User]; planning [B.generated] yields the single
    external fragment [F] at depth 0 on [User] and exactly one import
    statement, rendered for the names [FFragmentDoc] and [FFragment] and the
    path [A.generated]. *)
Theorem fragment_F_scenario
    (NamedType : Type)
    (getPossibleTypes : GraphQLSchema NamedType -> NamedType -> list GraphQLObjectType)
    (print : FragmentDefinitionNode -> string)
    (newBaseVisitor : RawConfig -> NearOperationFileParsedConfig -> BaseVisitor)
    (extractExternalFragmentsInUse : DocumentNode -> FragmentRegistry -> list (string * nat))
    (collectorOptions : DocumentImportResolverOptions)
    (schemaObject : GraphQLSchema NamedType)
    (rawConfig : RawConfig) (pluginList : list ConfiguredPlugin) (outputDir : string)
    (userType : NamedType) :
  let presetOptions :=
    {| documents := [Sample.documentA; Sample.documentB];
       config := rawConfig;
       plugins := pluginList;
       baseOutputDir := outputDir |} in
  let visitor := baseVisitor newBaseVisitor presetOptions in
  let entryF :=
    {| filePath := "A.generated";
       importNames := ["FFragmentDoc"; "FFragment"];
       onType := "User";
       node := Sample.fragmentF |} in
  getType schemaObject "User" = Some userType ->
  map objectTypeName (getPossibleTypes schemaObject userType) = ["User"] ->
  (exists pluginRecord, In pluginRecord pluginList /\ hasDocumentValueCapability pluginRecord) ->
  ~ nodeBasedOrExternalMode rawConfig ->
  getFragmentVariableName visitor "F" = "FFragmentDoc" ->
  convertName visitor "F"
    {| useTypesPrefix := true; suffix := getFragmentSuffix visitor "F" |} = "FFragment" ->
  generateFilePath collectorOptions "A.graphql" = "A.generated" ->
  extractExternalFragmentsInUse Sample.queryQ [("F", entryF)] = [("F", 0)] ->
  buildFragmentRegistry getPossibleTypes print newBaseVisitor collectorOptions
    presetOptions schemaObject
  = Return [("F", entryF)] /\
  exists resolve,
    buildFragmentResolver getPossibleTypes print newBaseVisitor
      extractExternalFragmentsInUse collectorOptions presetOptions schemaObject
    = Return resolve /\
    resolve "B.generated" Sample.queryQ
    = {| externalFragments :=
           [ {| level := 0; isExternal := true; name := "F";
                loadedOnType := "User"; loadedNode := Sample.fragmentF |} ];
         fragmentImportStatements :=
           [ generateImportStatement collectorOptions
               {| argBaseOutputDir := outputDir;
                  relativeOutputPath := "B.generated";
                  importSource := {| path := "A.generated";
                                     names := ["FFragmentDoc"; "FFragment"] |} |} ] |}.
Proof.
  intros presetOptions visitor entryF Hty Hpossible Hcap Hmode Hvar Htype Hpath Huse.
  assert (Hentry : registryEntry getPossibleTypes newBaseVisitor collectorOptions
                     presetOptions schemaObject Sample.documentA userType Sample.fragmentF
                   = entryF).
  { unfold registryEntry. rewrite Hpossible, getAllFragmentSubTypes_split.
    rewrite documentVariableNames_on by assumption.
    simpl. fold visitor. rewrite Hvar, Htype, Hpath. reflexivity. }
  assert (Hbuild : buildFragmentRegistry getPossibleTypes print newBaseVisitor
                     collectorOptions presetOptions schemaObject
                   = Return [("F", entryF)]).
  { rewrite build_scan.
    change (scanItems (documents presetOptions))
      with [(Sample.documentA, Sample.fragmentF)].
    cbn [scanFragments].
    rewrite (@process_resolved NamedType getPossibleTypes print newBaseVisitor
               collectorOptions presetOptions schemaObject Sample.documentA
               _ Sample.fragmentF userType Hty).
    rewrite Hentry. reflexivity. }
  split; [exact Hbuild|].
  unfold buildFragmentResolver. rewrite Hbuild. simpl bind.
  eexists. split; [reflexivity|].
  unfold resolveFragments. rewrite Huse. reflexivity.
Qed.

(** The amended C2 on the sample collaborators. *)
Lemma fragment_F_scenario_witness :
  Sample.build [Sample.documentA; Sample.documentB] ["typescript-react-apollo"]
  = Return [("F", {| filePath := "A.generated";
                     importNames := ["FFragmentDoc"; "FFragment"];
                     onType := "User";
                     node := Sample.fragmentF |})] /\
  Sample.plan [Sample.documentA; Sample.documentB] ["typescript-react-apollo"]
    "B.generated" Sample.queryQ
  = Return {| externalFragments :=
                [ {| level := 0; isExternal := true; name := "F";
                     loadedOnType := "User"; loadedNode := Sample.fragmentF |} ];
              fragmentImportStatements :=
                ["import { FFragmentDoc, FFragment } from './A.generated'"] |}.
Proof.
  destruct (@fragment_F_scenario Sample.NamedType Sample.getPossibleTypes Sample.print
              Sample.newBaseVisitor Sample.extractExternalFragmentsInUse
              Sample.collectorOptions Sample.userSchema Sample.defaultConfig
              [ {| firstKey := "typescript-react-apollo" |} ] "out"
              (Sample.ObjectType "User"))
    as [Hbuild [resolve [Hresolver Hplan]]].
  - reflexivity.
  - reflexivity.
  - exists {| firstKey := "typescript-react-apollo" |}. split; [now left|].
    exists "typescript-react-apollo". split; [now left | left; reflexivity].
  - unfold nodeBasedOrExternalMode. simpl. intros [H|[H|H]]; discriminate.
  - reflexivity.
  - reflexivity.
  - reflexivity.
  - reflexivity.
  - split; [exact Hbuild|].
    unfold Sample.plan.
    change (Sample.presetOf [Sample.documentA; Sample.documentB] ["typescript-react-apollo"])
      with {| documents := [Sample.documentA; Sample.documentB];
              config := Sample.defaultConfig;
              plugins := [ {| firstKey := "typescript-react-apollo" |} ];
              baseOutputDir := "out" |}.
    rewrite Hresolver. simpl bind. rewrite Hplan. reflexivity.
Defined.

(** * Further properties *)

(** ** Containers, continued *)

Lemma filter_has_twice (acc : JsSet.t) (x : string) (l : list string) :
  filter (fun y => negb (JsSet.has (acc ++ [x]) y)) l
  = filter (fun y => negb (JsSet.has acc y))
      (filter (fun y => negb (String.eqb y x)) l).
Proof.
  induction l as [|a l IH]; simpl; [reflexivity|].
  unfold JsSet.has at 1. rewrite existsb_app. simpl. rewrite orb_false_r.
  fold (JsSet.has acc a).
  destruct (String.eqb a x) eqn:Eax; simpl.
  - rewrite orb_true_r. simpl. exact IH.
  - rewrite orb_false_r. destruct (JsSet.has acc a); simpl; now rewrite IH.
Qed.

Lemma filter_has_member (acc : JsSet.t) (x : string) (l : list string) :
  JsSet.has acc x = true ->
  filter (fun y => negb (JsSet.has acc y))
    (filter (fun y => negb (String.eqb y x)) l)
  = filter (fun y => negb (JsSet.has acc y)) l.
Proof.
  intros Hx. induction l as [|a l IH]; simpl; [reflexivity|].
  destruct (String.eqb_spec a x) as [->|Hne]; simpl.
  - rewrite Hx. simpl. exact IH.
  - destruct (JsSet.has acc a); simpl; now rewrite IH.
Qed.

Lemma jsset_fold_add_first_occurrences (l : list string) (acc : JsSet.t) :
  fold_left JsSet.add l acc
  = acc ++ filter (fun y => negb (JsSet.has acc y)) (firstOccurrences l).
Proof.
  revert acc. induction l as [|x l IH]; intros acc; simpl.
  - now rewrite app_nil_r.
  - rewrite IH. unfold JsSet.add. destruct (JsSet.has acc x) eqn:Hx; simpl.
    + now rewrite filter_has_member.
    + rewrite filter_has_twice, <- app_assoc. reflexivity.
Qed.

Lemma jsset_ofList_first_occurrences (l : list string) :
  JsSet.ofList l = firstOccurrences l.
Proof.
  unfold JsSet.ofList. rewrite jsset_fold_add_first_occurrences. simpl.
  induction (firstOccurrences l) as [|a r IH]; simpl; [reflexivity|].
  now rewrite IH.
Qed.

Lemma jsobject_keys_set_add (V : Type) (k : string) (v : V) (o : JsObject.t V) :
  JsObject.keys (JsObject.set k v o) = JsSet.add (JsObject.keys o) k.
Proof.
  unfold JsObject.keys, JsSet.add, JsSet.has.
  induction o as [|[k0 v0] o IH]; simpl; [reflexivity|].
  destruct (String.eqb_spec k k0) as [->|Hne]; simpl; [reflexivity|].
  rewrite IH. destruct (existsb (String.eqb k) (map fst o)); reflexivity.
Qed.

Lemma jsobject_entries_from_keys (V : Type) (f : string -> V) (o : JsObject.t V) :
  NoDup (JsObject.keys o) ->
  (forall k, In k (JsObject.keys o) -> JsObject.get k o = Some (f k)) ->
  o = map (fun k => (k, f k)) (JsObject.keys o).
Proof.
  unfold JsObject.keys. induction o as [|[k0 v0] o IH]; simpl; intros Hnd Hget;
    [reflexivity|].
  inversion Hnd as [|? ? Hnotin Hnd']; subst.
  assert (Hv : v0 = f k0).
  { specialize (Hget k0 (or_introl eq_refl)). rewrite String.eqb_refl in Hget.
    congruence. }
  rewrite Hv. f_equal. apply IH; [assumption|].
  intros k Hk. specialize (Hget k (or_intror Hk)).
  destruct (String.eqb_spec k k0) as [Heq|Hne]; [|assumption].
  rewrite Heq in Hk. contradiction.
Qed.

(** ** The registry builder, continued *)

Section BuilderExtras.
Variable GraphQLNamedType : Type.
Variable getPossibleTypes :
  GraphQLSchema GraphQLNamedType -> GraphQLNamedType -> list GraphQLObjectType.
Variable print : FragmentDefinitionNode -> string.
Variable newBaseVisitor : RawConfig -> NearOperationFileParsedConfig -> BaseVisitor.
Variable collectorOptions : DocumentImportResolverOptions.
Variable presetOptions : PresetFnArgs.
Variable schemaObject : GraphQLSchema GraphQLNamedType.

Local Abbreviation process :=
  (processFragment getPossibleTypes print newBaseVisitor collectorOptions
     presetOptions schemaObject).
Local Abbreviation scan :=
  (scanFragments getPossibleTypes print newBaseVisitor collectorOptions
     presetOptions schemaObject).
Local Abbreviation entryFor :=
  (registryEntry getPossibleTypes newBaseVisitor collectorOptions
     presetOptions schemaObject).
Local Abbreviation build :=
  (buildFragmentRegistry getPossibleTypes print newBaseVisitor collectorOptions
     presetOptions schemaObject).
Local Abbreviation items := (scanItems (documents presetOptions)).
Local Abbreviation scanStart :=
  {| prev := JsObject.empty; duplicateFragmentNames := [] |}.

Implicit Types (st : BuildState) (f g : FragmentDefinitionNode) (d : DocumentFile)
  (n : string).

Lemma scan_keys its st st' :
  scan its st = Return st' ->
  JsObject.keys (prev st')
  = fold_left JsSet.add (map (fun item => name_value (snd item)) its)
      (JsObject.keys (prev st)).
Proof.
  revert st. induction its as [|[d f] its IH]; intros st Hscan.
  - simpl in Hscan. now inversion Hscan.
  - apply scan_cons_inv in Hscan. destruct Hscan as [st1 [Hp Hs]].
    apply process_inv in Hp. destruct Hp as [ty [_ [Hprev _]]].
    rewrite (IH st1 Hs), Hprev, jsobject_keys_set_add. reflexivity.
Qed.

Lemma scan_return_resolves its st st' :
  scan its st = Return st' ->
  forall d f, In (d, f) its -> resolvesType schemaObject f.
Proof.
  revert st. induction its as [|[d0 f0] its IH]; intros st Hscan d f Hin.
  - contradiction.
  - apply scan_cons_inv in Hscan. destruct Hscan as [st1 [Hp Hs]].
    destruct Hin as [Heq|Hin]; [|exact (IH st1 Hs d f Hin)].
    injection Heq as _ <-.
    apply process_inv in Hp. destruct Hp as [ty [Hty _]].
    unfold resolvesType. congruence.
Qed.

Lemma scan_entries_origin its st st' n e :
  scan its st = Return st' ->
  JsObject.get n (prev st') = Some e ->
  JsObject.get n (prev st) = Some e \/
  exists d schemaType,
    In (d, node e) its /\
    name_value (node e) = n /\
    getType schemaObject (typeCondition_name_value (node e)) = Some schemaType /\
    e = entryFor d schemaType (node e).
Proof.
  revert st. induction its as [|[d f] its IH]; intros st Hscan Hget.
  - simpl in Hscan. inversion Hscan; subst. now left.
  - apply scan_cons_inv in Hscan. destruct Hscan as [st1 [Hp Hs]].
    apply process_inv in Hp. destruct Hp as [ty [Hty [Hprev _]]].
    destruct (IH st1 Hs Hget) as [Hold | [d' [ty' [Hin [Hn [Hty' He]]]]]].
    + rewrite Hprev in Hold.
      destruct (string_dec (name_value f) n) as [Heq|Hne].
      * rewrite <- Heq, jsobject_get_set_eq in Hold. injection Hold as <-.
        right. exists d, ty. simpl. split; [now left|]. auto.
      * rewrite jsobject_get_set_neq in Hold by assumption. now left.
    + right. exists d', ty'. split; [now right|]. auto.
Qed.

Lemma scan_redefinitions its st st' seen :
  scan its st = Return st' ->
  tracks st seen ->
  duplicateFragmentNames st'
  = duplicateFragmentNames st ++ redefinitions print seen (map snd its).
Proof.
  revert st seen. induction its as [|[d f] its IH]; intros st seen Hscan Htracks.
  - simpl in Hscan. inversion Hscan; subst. simpl. now rewrite app_nil_r.
  - apply scan_cons_inv in Hscan. destruct Hscan as [st1 [Hp Hs]].
    apply process_inv in Hp. destruct Hp as [ty [_ [Hprev Hdup]]].
    assert (Htracks1 : tracks st1 (f :: seen)).
    { intros n. rewrite Hprev. simpl.
      destruct (String.eqb_spec (name_value f) n) as [<-|Hne].
      - now rewrite jsobject_get_set_eq.
      - rewrite jsobject_get_set_neq by assumption. apply Htracks. }
    rewrite (IH st1 (f :: seen) Hs Htracks1), Hdup. simpl.
    rewrite app_assoc. f_equal.
    specialize (Htracks (name_value f)). unfold isConflict.
    destruct (JsObject.get (name_value f) (prev st)) as [e|];
      simpl in Htracks; rewrite <- Htracks.
    + destruct (String.eqb (print f) (print (node e))); simpl;
        [now rewrite app_nil_r | reflexivity].
    + now rewrite app_nil_r.
Qed.

(** X1.  When no fragment bears the name of a member of [Object.prototype],
    the build returns a registry exactly when every fragment's type
    condition resolves and no name has two definitions with different
    serialized forms. *)
Theorem build_returns_iff_resolved_and_consistent :
  plainFragmentNames items ->
  ((exists registry, build = Return registry)
   <-> (forall d f, In (d, f) items -> resolvesType schemaObject f) /\
       (forall n, ~ conflictingName print items n)).
Proof.
  intros _. rewrite build_scan. split.
  - intros [registry Hbuild].
    destruct (scan items scanStart) as [st'|msg] eqn:Hscan; simpl in Hbuild;
      [|discriminate].
    destruct (duplicateFragmentNames st') as [|x rest] eqn:Hdup; simpl in Hbuild;
      [|discriminate].
    split; [eapply scan_return_resolves; exact Hscan|].
    intros n [d1 [f1 [d2 [f2 [H1 [H2 [Hn1 [Hn2 Hne]]]]]]]].
    assert (Hnot : ~ In n (duplicateFragmentNames st')) by (rewrite Hdup; intros []).
    edestruct scan_duplicates_complete as [p [_ Hall]];
      [exact Hscan | exact Hnot |].
    apply Hne. now rewrite (Hall d1 f1 H1 Hn1), (Hall d2 f2 H2 Hn2).
  - intros [Hres Hconsistent].
    edestruct scan_returns as [st' Hscan]; [exact Hres|].
    rewrite Hscan. simpl bind.
    assert (Hdup : duplicateFragmentNames st' = []).
    { change [] with (duplicateFragmentNames scanStart).
      eapply scan_without_conflict; [exact Hscan | |].
      - intros d f e _ Hget. simpl in Hget. discriminate.
      - intros d1 f1 d2 f2 H1 H2 Hn.
        destruct (string_dec (print f1) (print f2)) as [Heq|Hne]; [assumption|].
        exfalso. apply (Hconsistent (name_value f1)).
        exists d1, f1, d2, f2. auto. }
    rewrite Hdup. simpl. eauto.
Qed.

(** X2.  The keys of the registry the build returns are the names of the
    fragment definitions, each once, in the order in which the names are
    first met in the scan. *)
Theorem registry_keys_in_first_definition_order registry :
  build = Return registry ->
  JsObject.keys registry
  = firstOccurrences (map (fun item => name_value (snd item)) items).
Proof.
  rewrite build_scan. intros Hbuild.
  destruct (scan items scanStart) as [st'|msg] eqn:Hscan; simpl in Hbuild;
    [|discriminate].
  destruct (negb _) in Hbuild; [discriminate|]. injection Hbuild as <-.
  erewrite scan_keys by exact Hscan. simpl.
  apply jsset_ofList_first_occurrences.
Qed.

Lemma build_entry_origin registry n e :
  build = Return registry ->
  JsObject.get n registry = Some e ->
  exists d schemaType,
    In (d, node e) items /\
    name_value (node e) = n /\
    getType schemaObject (typeCondition_name_value (node e)) = Some schemaType /\
    e = entryFor d schemaType (node e).
Proof.
  rewrite build_scan. intros Hbuild Hget.
  destruct (scan items scanStart) as [st'|msg] eqn:Hscan; simpl in Hbuild;
    [|discriminate].
  destruct (negb _) in Hbuild; [discriminate|]. injection Hbuild as <-.
  edestruct scan_entries_origin as [Hold | Hnew];
    [exact Hscan | exact Hget | simpl in Hold; discriminate | exact Hnew].
Qed.

(** X3.  Every entry of the registry the build returns was written for a
    fragment definition of the document set: the key is the definition's
    name, [onType] is its type condition, which resolves against the schema,
    and the file path and the import names are those computed for that
    definition and its document. *)
Theorem registry_entries_come_from_definitions registry n e :
  build = Return registry ->
  JsObject.get n registry = Some e ->
  exists d schemaType,
    In (d, node e) items /\
    name_value (node e) = n /\
    onType e = typeCondition_name_value (node e) /\
    getType schemaObject (onType e) = Some schemaType /\
    filePath e = generateFilePath collectorOptions (location d) /\
    e = entryFor d schemaType (node e).
Proof.
  intros Hbuild Hget.
  destruct (@build_entry_origin registry n e Hbuild Hget)
    as [d [ty [Hin [Hn [Hty He]]]]].
  exists d, ty. split; [assumption|]. split; [assumption|].
  split; [rewrite He; reflexivity|].
  split; [rewrite He; simpl; exact Hty|].
  split; [rewrite He; reflexivity | exact He].
Qed.

(** X4.  When no fragment bears the name of a member of [Object.prototype]
    and every type condition resolves, the names the duplicate error lists
    are, in scan order, the names of the definitions whose serialized form
    differs from that of the most recent earlier definition of the same
    name, one listing per such definition; the build returns a registry when
    there is none. *)
Theorem duplicate_message_lists_redefinitions :
  plainFragmentNames items ->
  (forall d f, In (d, f) items -> resolvesType schemaObject f) ->
  let names := redefinitions print [] (map snd items) in
  (names = [] -> exists registry, build = Return registry) /\
  (names <> [] ->
   build
   = Throw ("Multiple fragments with the name(s) " ++ quote
            ++ String.concat ", " names ++ quote ++ " were found.")%string).
Proof.
  intros _ Hres names. rewrite build_scan.
  edestruct scan_returns as [st' Hscan]; [exact Hres|].
  rewrite Hscan. simpl bind.
  assert (Hdup : duplicateFragmentNames st' = names).
  { assert (Htracks : tracks scanStart []) by (intros n; reflexivity).
    exact (@scan_redefinitions items scanStart st' [] Hscan Htracks). }
  rewrite Hdup. split; intros Hnames.
  - rewrite Hnames. simpl. eauto.
  - destruct names; [congruence | reflexivity].
Qed.
End BuilderExtras.

(** ** The planner, continued *)

Section PlannerExtras.
Variable extractExternalFragmentsInUse :
  DocumentNode -> FragmentRegistry -> list (string * nat).
Variable fragmentRegistry : FragmentRegistry.
Variable baseOutputDir : string.
Variable generateImportStatement : ImportStatementArgs -> string.

Local Abbreviation resolve :=
  (resolveFragments extractExternalFragmentsInUse fragmentRegistry baseOutputDir
     generateImportStatement).
Local Abbreviation depthMap documentFileContent :=
  (extractExternalFragmentsInUse documentFileContent fragmentRegistry).
Local Abbreviation callFor generatedFilePath groupPath symbols :=
  {| argBaseOutputDir := baseOutputDir;
     relativeOutputPath := generatedFilePath;
     importSource := {| path := groupPath; names := symbols |} |}.
Local Abbreviation storedSet groups groupPath :=
  (match JsObject.get groupPath groups with
   | Some importSet => importSet
   | None => []
   end).

Implicit Types (groups : JsObject.t JsSet.t) (e : FragmentRegistryEntry)
  (entries : list FragmentRegistryEntry) (fragmentsInUse : list (string * nat)).

Lemma addTopLevelImports_zero_eq e groups :
  addTopLevelImports e 0 groups
  = JsObject.set (filePath e)
      (fold_left JsSet.add (importNames e) (storedSet groups (filePath e))) groups.
Proof.
  unfold addTopLevelImports. simpl.
  destruct (JsObject.get (filePath e) groups); reflexivity.
Qed.

Lemma plan_groups_entries fragmentsInUse (st : PlanState) :
  fragmentFileImports (fold_left (planFragment fragmentRegistry) fragmentsInUse st)
  = fold_left (fun groups e => addTopLevelImports e 0 groups)
      (directEntries fragmentRegistry fragmentsInUse) (fragmentFileImports st).
Proof.
  revert st. induction fragmentsInUse as [|[n lvl] rest IH]; intros st;
    [reflexivity|].
  unfold directEntries. simpl. fold (directEntries fragmentRegistry rest).
  rewrite fold_left_app, IH.
  destruct (JsObject.get n fragmentRegistry) as [e|]; destruct lvl; reflexivity.
Qed.

Lemma symbolsFrom_absent entries p :
  existsb (fun e => String.eqb (filePath e) p) entries = false ->
  symbolsFrom entries p = [].
Proof.
  unfold symbolsFrom. induction entries as [|e entries IH]; simpl; [reflexivity|].
  destruct (String.eqb (filePath e) p); simpl; [discriminate | assumption].
Qed.

Lemma groups_closed_form entries groups :
  JsObject.keys (fold_left (fun groups e => addTopLevelImports e 0 groups) entries groups)
  = fold_left JsSet.add (map filePath entries) (JsObject.keys groups) /\
  forall p,
    JsObject.get p
      (fold_left (fun groups e => addTopLevelImports e 0 groups) entries groups)
    = if existsb (fun e => String.eqb (filePath e) p) entries
      then Some (fold_left JsSet.add (symbolsFrom entries p) (storedSet groups p))
      else JsObject.get p groups.
Proof.
  revert groups. induction entries as [|e entries IH]; intros groups; simpl.
  - split; reflexivity.
  - destruct (IH (addTopLevelImports e 0 groups)) as [Hkeys Hget].
    rewrite addTopLevelImports_zero_eq in *. split.
    + rewrite Hkeys, jsobject_keys_set_add. reflexivity.
    + intros p. rewrite Hget. unfold symbolsFrom. simpl.
      destruct (String.eqb_spec (filePath e) p) as [<-|Hne]; simpl.
      * rewrite jsobject_get_set_eq, fold_left_app.
        destruct (existsb _ entries) eqn:Hex; [reflexivity|].
        apply symbolsFrom_absent in Hex. unfold symbolsFrom in Hex.
        now rewrite Hex.
      * rewrite jsobject_get_set_neq by assumption. reflexivity.
Qed.

Lemma references_origin fragmentsInUse reference :
  In reference (referencesInOrder fragmentRegistry fragmentsInUse) ->
  exists e,
    In (name reference, level reference) fragmentsInUse /\
    JsObject.get (name reference) fragmentRegistry = Some e /\
    isExternal reference = true /\
    loadedOnType reference = onType e /\
    loadedNode reference = node e.
Proof.
  induction fragmentsInUse as [|[n lvl] rest IH]; simpl; [intros []|].
  unfold loadedFragmentOf. simpl.
  destruct (JsObject.get n fragmentRegistry) as [e|] eqn:E.
  - intros [<-|Hin]; simpl.
    + exists e. split; [now left|]. auto.
    + destruct (IH Hin) as [e' [Hmem H]]. exists e'. split; [now right | exact H].
  - intros Hin. destruct (IH Hin) as [e' [Hmem H]].
    exists e'. split; [now right | exact H].
Qed.

(** X5.  When the keys the planner reads are not members of
    [Object.prototype] and no file path is an array index, the import
    statements of a plan are rendered, in the order in which the file paths
    are first met among the registered fragments of depth 0, one per distinct
    path; the names passed for a path are the import names of the depth-0
    fragments exported by that path, in the order of the depth map, each name
    at its first occurrence. *)
Theorem import_statements_in_first_discovery_order generatedFilePath documentFileContent :
  plainPlan fragmentRegistry (depthMap documentFileContent) ->
  noIndexPaths fragmentRegistry (depthMap documentFileContent) ->
  let entries := directEntries fragmentRegistry (depthMap documentFileContent) in
  fragmentImportStatements (resolve generatedFilePath documentFileContent)
  = map (fun groupPath =>
           generateImportStatement
             (callFor generatedFilePath groupPath
                (firstOccurrences (symbolsFrom entries groupPath))))
        (firstOccurrences (map filePath entries)).
Proof.
  intros _ _ entries. unfold resolveFragments. simpl.
  set (fragmentsInUse := depthMap documentFileContent) in *.
  destruct (planFragments_groups fragmentRegistry fragmentsInUse) as [[Hnodup _] _].
  set (groups := fragmentFileImports (planFragments fragmentRegistry fragmentsInUse)) in *.
  assert (Hclosed : groups
                    = fold_left (fun groups e => addTopLevelImports e 0 groups)
                        entries JsObject.empty).
  { subst groups. unfold planFragments. now rewrite plan_groups_entries. }
  destruct (groups_closed_form entries JsObject.empty) as [Hkeys Hget].
  rewrite <- Hclosed in Hkeys, Hget. simpl in Hkeys.
  fold (JsSet.ofList (map filePath entries)) in Hkeys.
  rewrite jsset_ofList_first_occurrences in Hkeys.
  assert (Hgroups : groups
                    = map (fun p => (p, firstOccurrences (symbolsFrom entries p)))
                        (JsObject.keys groups)).
  { apply jsobject_entries_from_keys; [exact Hnodup|].
    intros p Hp. rewrite Hget.
    assert (Hin : In p (map filePath entries)).
    { rewrite Hkeys, <- jsset_ofList_first_occurrences in Hp.
      exact (proj1 (jsset_in_ofList (map filePath entries) p) Hp). }
    assert (Hex : existsb (fun e => String.eqb (filePath e) p) entries = true).
    { apply in_map_iff in Hin. destruct Hin as [e [<- He]].
      apply existsb_exists. exists e. split; [assumption | apply String.eqb_refl]. }
    rewrite Hex. simpl.
    fold (JsSet.ofList (symbolsFrom entries p)).
    now rewrite jsset_ofList_first_occurrences. }
  unfold importStatementCalls, JsObject.entries, JsSet.toList.
  rewrite Hgroups, Hkeys, !map_map. reflexivity.
Qed.

(** X6.  When the keys the planner reads are not members of
    [Object.prototype], a plan has no import statement exactly when the
    depth map holds no registered name at depth 0. *)
Theorem no_import_statement_iff_no_direct_fragment generatedFilePath documentFileContent :
  plainPlan fragmentRegistry (depthMap documentFileContent) ->
  (fragmentImportStatements (resolve generatedFilePath documentFileContent) = []
   <-> forall fragmentName,
         In (fragmentName, 0) (depthMap documentFileContent) ->
         JsObject.get fragmentName fragmentRegistry = None).
Proof.
  intros _. unfold resolveFragments. simpl.
  set (fragmentsInUse := depthMap documentFileContent).
  destruct (planFragments_groups fragmentRegistry fragmentsInUse) as [_ [Hkeys _]].
  set (groups := fragmentFileImports (planFragments fragmentRegistry fragmentsInUse)) in *.
  unfold importStatementCalls, JsObject.entries. rewrite map_map. split.
  - intros Hnil n Hin.
    destruct (JsObject.get n fragmentRegistry) as [e|] eqn:E; [|reflexivity].
    assert (Hk : In (filePath e) (JsObject.keys groups)).
    { apply Hkeys. exists n, e. auto. }
    apply map_eq_nil in Hnil. rewrite Hnil in Hk. contradiction.
  - intros Hnone. clearbody groups.
    destruct groups as [|[p symbols] rest]; [reflexivity|].
    assert (Hk : In p (JsObject.keys ((p, symbols) :: rest))) by now left.
    apply Hkeys in Hk.
    destruct Hk as [n [e [Hin [Hget _]]]].
    rewrite (Hnone n Hin) in Hget. discriminate.
Qed.

(** X7.  When the keys the planner reads are not members of
    [Object.prototype], a plan has no external fragment exactly when no name
    of the depth map is registered. *)
Theorem no_external_fragment_iff_nothing_registered generatedFilePath documentFileContent :
  plainPlan fragmentRegistry (depthMap documentFileContent) ->
  (externalFragments (resolve generatedFilePath documentFileContent) = []
   <-> forall fragmentName depth,
         In (fragmentName, depth) (depthMap documentFileContent) ->
         JsObject.get fragmentName fragmentRegistry = None).
Proof.
  intros _. unfold resolveFragments, planFragments. simpl. rewrite plan_collected. simpl.
  induction (depthMap documentFileContent) as [|[n lvl] rest IH]; simpl.
  - split; [intros _ ? ? [] | reflexivity].
  - unfold loadedFragmentOf. simpl.
    destruct (JsObject.get n fragmentRegistry) as [e|] eqn:E.
    + split; [discriminate|]. intros H.
      rewrite (H n lvl (or_introl eq_refl)) in E. discriminate.
    + rewrite IH. split.
      * intros H n' d [Heq|Hin]; [injection Heq as <- <-; exact E | eauto].
      * intros H n' d Hin. apply (H n' d). now right.
Qed.
End PlannerExtras.

(** ** Symbol names, continued *)

(** X8.  A plugin list has a document-variable plugin exactly when one of its
    parts has one: the answer for a concatenation is the disjunction of the
    answers for its parts, so neither the order of the plugins nor the
    presence of other plugins matters. *)
Theorem isUsingDocVarPlugin_app (plugins1 plugins2 : list ConfiguredPlugin) :
  isUsingDocVarPlugin (plugins1 ++ plugins2)
  = (isUsingDocVarPlugin plugins1 || isUsingDocVarPlugin plugins2)%bool.
Proof.
  induction plugins1 as [|p rest IH]; [reflexivity|].
  cbn [isUsingDocVarPlugin app].
  destruct (find (matchesDocVarPlugin (toLowerCase (firstKey p))) DOC_VAR_PLUGINS);
    [reflexivity | exact IH].
Qed.

(** X9.  A fragment has as many import names as its type condition has
    possible types, plus one when the document-variable name is emitted; the
    list is empty exactly when there is no possible type and no
    document-variable name. *)
Theorem import_names_count (visitor : BaseVisitor) (rawConfig : RawConfig)
    (pluginList : list ConfiguredPlugin) (possibleTypes : list string) (name : string) :
  let emitsVariable :=
    (isUsingDocVarPlugin pluginList
     && negb (isDocumentNodeOrExternal
                (getConfigValue (documentMode rawConfig) graphQLTag)))%bool in
  let subTypes :=
    getAllFragmentSubTypes visitor rawConfig pluginList possibleTypes name in
  length subTypes = (if emitsVariable then 1 else 0) + length possibleTypes /\
  (subTypes = [] <-> emitsVariable = false /\ possibleTypes = []).
Proof.
  intros emitsVariable subTypes. subst subTypes.
  rewrite getAllFragmentSubTypes_split.
  unfold documentVariableNames. fold emitsVariable.
  unfold typeSpecializedNames.
  destruct emitsVariable; destruct possibleTypes as [|t1 [|t2 rest]]; simpl;
    rewrite ?length_map; (split; [reflexivity|]);
    split; try discriminate; try (intros [? ?]; discriminate); auto.
Qed.

(** ** The resolver as a whole *)

Lemma fragmentDefinitions_in (defs : list DefinitionNode) (f : FragmentDefinitionNode) :
  In f (fragmentDefinitions defs) <-> In (FragmentDefinition f) defs.
Proof.
  induction defs as [|def defs IH]; simpl; [reflexivity|].
  destruct def as [operation operationName selectionSet | g |]; simpl; rewrite IH.
  - split; [now right | intros [H|H]; [discriminate | assumption]].
  - split; (intros [H|H]; [left; congruence | now right]).
  - split; [now right | intros [H|H]; [discriminate | assumption]].
Qed.

Lemma scanItems_in_documents (docs : list DocumentFile) (d : DocumentFile)
    (f : FragmentDefinitionNode) :
  In (d, f) (scanItems docs) ->
  In d docs /\ In (FragmentDefinition f) (definitions (document d)).
Proof.
  unfold scanItems. intros Hin. apply in_flat_map in Hin.
  destruct Hin as [d0 [Hd0 Hin]]. apply in_map_iff in Hin.
  destruct Hin as [f0 [Heq Hf0]]. injection Heq as <- <-.
  split; [assumption | now apply fragmentDefinitions_in].
Qed.

Section ResolverExtras.
Variable GraphQLNamedType : Type.
Variable getPossibleTypes :
  GraphQLSchema GraphQLNamedType -> GraphQLNamedType -> list GraphQLObjectType.
Variable print : FragmentDefinitionNode -> string.
Variable newBaseVisitor : RawConfig -> NearOperationFileParsedConfig -> BaseVisitor.
Variable extractExternalFragmentsInUse :
  DocumentNode -> FragmentRegistry -> list (string * nat).
Variable collectorOptions : DocumentImportResolverOptions.
Variable presetOptions : PresetFnArgs.
Variable schemaObject : GraphQLSchema GraphQLNamedType.

(** X10.  When the keys the planner reads are not members of
    [Object.prototype], every external fragment returned by a resolver that
    was built from a document set refers to a fragment definition of that
    set: it is marked external, its name and type condition are those of the
    definition, and the type condition resolves against the schema. *)
Theorem resolver_references_come_from_definitions
    (resolve : string -> DocumentNode -> ResolvedFragments)
    (generatedFilePath : string) (documentFileContent : DocumentNode)
    (reference : LoadedFragment) :
  buildFragmentResolver getPossibleTypes print newBaseVisitor
    extractExternalFragmentsInUse collectorOptions presetOptions schemaObject
  = Return resolve ->
  (forall registry,
     buildFragmentRegistry getPossibleTypes print newBaseVisitor collectorOptions
       presetOptions schemaObject = Return registry ->
     plainPlan registry (extractExternalFragmentsInUse documentFileContent registry)) ->
  In reference (externalFragments (resolve generatedFilePath documentFileContent)) ->
  isExternal reference = true /\
  name reference = name_value (loadedNode reference) /\
  loadedOnType reference = typeCondition_name_value (loadedNode reference) /\
  resolvesType schemaObject (loadedNode reference) /\
  exists d, In (d, loadedNode reference) (scanItems (documents presetOptions)).
Proof.
  unfold buildFragmentResolver.
  destruct (buildFragmentRegistry getPossibleTypes print newBaseVisitor
              collectorOptions presetOptions schemaObject)
    as [registry|message] eqn:Hbuild; simpl; [|discriminate].
  intros Hresolve _ Hin. injection Hresolve as <-.
  unfold resolveFragments, planFragments in Hin. simpl in Hin.
  rewrite plan_collected in Hin. simpl in Hin.
  apply references_origin in Hin.
  destruct Hin as [e [_ [Hget [Hext [Hon Hnode]]]]].
  edestruct build_entry_origin as [d [ty [Hmem [Hname [Hty He]]]]];
    [exact Hbuild | exact Hget |].
  rewrite Hon, Hnode. split; [assumption|].
  split; [now rewrite Hname|]. split; [rewrite He; reflexivity|].
  split; [unfold resolvesType; congruence | exists d; exact Hmem].
Qed.
(** X11.  When the keys the planner reads are not members of
    [Object.prototype], every import statement returned by a resolver that
    was built from a document set is rendered for the output directory of
    the preset, the output file being planned, and the path generated for the
    location of a document of the set that holds a fragment definition. *)
Theorem resolver_imports_from_generated_paths
    (resolve : string -> DocumentNode -> ResolvedFragments)
    (generatedFilePath : string) (documentFileContent : DocumentNode) :
  buildFragmentResolver getPossibleTypes print newBaseVisitor
    extractExternalFragmentsInUse collectorOptions presetOptions schemaObject
  = Return resolve ->
  (forall registry,
     buildFragmentRegistry getPossibleTypes print newBaseVisitor collectorOptions
       presetOptions schemaObject = Return registry ->
     plainPlan registry (extractExternalFragmentsInUse documentFileContent registry)) ->
  exists calls,
    Permutation
      (fragmentImportStatements (resolve generatedFilePath documentFileContent))
      (map (generateImportStatement collectorOptions) calls) /\
    forall call, In call calls ->
      argBaseOutputDir call = baseOutputDir presetOptions /\
      relativeOutputPath call = generatedFilePath /\
      exists documentRecord fragment,
        In documentRecord (documents presetOptions) /\
        In (FragmentDefinition fragment) (definitions (document documentRecord)) /\
        path (importSource call)
        = generateFilePath collectorOptions (location documentRecord).
Proof.
  unfold buildFragmentResolver.
  destruct (buildFragmentRegistry getPossibleTypes print newBaseVisitor
              collectorOptions presetOptions schemaObject)
    as [registry|message] eqn:Hbuild; simpl; [|discriminate].
  intros Hresolve _. injection Hresolve as <-.
  unfold resolveFragments. simpl.
  set (fragmentsInUse := extractExternalFragmentsInUse documentFileContent registry).
  eexists. split; [apply Permutation_refl|].
  intros call Hcall. unfold importStatementCalls, JsObject.entries in Hcall.
  apply in_map_iff in Hcall. destruct Hcall as [[p symbols] [<- Hmem]]. simpl.
  split; [reflexivity|]. split; [reflexivity|].
  destruct (planFragments_groups registry fragmentsInUse) as [_ [Hkeys _]].
  assert (Hk : In p (JsObject.keys
                       (fragmentFileImports (planFragments registry fragmentsInUse)))).
  { unfold JsObject.keys. apply in_map_iff. exists (p, symbols). auto. }
  apply Hkeys in Hk. destruct Hk as [n [e [_ [Hget Hpath]]]].
  edestruct build_entry_origin as [d [ty [Hin [_ [_ He]]]]];
    [exact Hbuild | exact Hget |].
  apply scanItems_in_documents in Hin. destruct Hin as [Hd Hf].
  exists d, (node e). split; [exact Hd|]. split; [exact Hf|].
  rewrite <- Hpath, He. reflexivity.
Qed.
End ResolverExtras.

(** ** Scenarios, continued *)

(** X2 on two documents defining the same [Dup]: the registry has the one
    key [Dup]. *)
Lemma registry_keys_in_first_definition_order_witness :
  exists registry,
    Sample.build Sample.identicalDuplicates [] = Return registry /\
    JsObject.keys registry = ["Dup"].
Proof.
  eexists. split; [reflexivity|].
  exact (@registry_keys_in_first_definition_order Sample.NamedType
           Sample.getPossibleTypes Sample.print Sample.newBaseVisitor
           Sample.collectorOptions (Sample.presetOf Sample.identicalDuplicates [])
           Sample.userSchema _ eq_refl).
Defined.

(** X3 on the file holding [E] and [G]: the entry of [G] was written for the
    definition of [G] in [A.graphql]. *)
Lemma registry_entries_come_from_definitions_witness :
  exists registry e d,
    Sample.build Sample.sharedFile [] = Return registry /\
    JsObject.get "G" registry = Some e /\
    In (d, node e) (scanItems Sample.sharedFile) /\
    name_value (node e) = "G" /\
    onType e = typeCondition_name_value (node e) /\
    filePath e = Sample.nearOperationFilePath (location d).
Proof.
  destruct (@registry_entries_come_from_definitions Sample.NamedType
              Sample.getPossibleTypes Sample.print Sample.newBaseVisitor
              Sample.collectorOptions (Sample.presetOf Sample.sharedFile [])
              Sample.userSchema _ "G" _ shared_file_registry eq_refl)
    as [d [ty [Hin [Hname [Hon [_ [Hpath _]]]]]]].
  eexists. eexists. exists d.
  split; [exact shared_file_registry|]. split; [reflexivity|].
  split; [exact Hin|]. split; [exact Hname|]. split; [exact Hon | exact Hpath].
Defined.

(** X4 on three documents defining [Dup] with one field, with two, and with
    one again: the name is listed twice. *)
Lemma duplicate_message_lists_redefinitions_witness :
  plainFragmentNames (scanItems redefinedTwice) /\
  (forall d f, In (d, f) (scanItems redefinedTwice) ->
     resolvesType Sample.userSchema f) /\
  redefinitions Sample.print [] (map snd (scanItems redefinedTwice)) = ["Dup"; "Dup"] /\
  Sample.build redefinedTwice []
  = Throw ("Multiple fragments with the name(s) " ++ quote
           ++ "Dup, Dup" ++ quote ++ " were found.")%string.
Proof.
  assert (Hres : forall d f, In (d, f) (scanItems redefinedTwice) ->
                   resolvesType Sample.userSchema f).
  { intros d f [H|[H|[H|[]]]]; injection H as _ <-; vm_compute; discriminate. }
  assert (Hplain : plainFragmentNames (scanItems redefinedTwice)).
  { intros d f [H|[H|[H|[]]]]; injection H as _ <-; reflexivity. }
  split; [exact Hplain|]. split; [exact Hres|]. split; [reflexivity|].
  destruct (@duplicate_message_lists_redefinitions Sample.NamedType
              Sample.getPossibleTypes Sample.print Sample.newBaseVisitor
              Sample.collectorOptions (Sample.presetOf redefinedTwice [])
              Sample.userSchema Hplain Hres) as [_ Hthrow].
  apply Hthrow. discriminate.
Defined.

(** The registry built from [A.graphql] and [B.graphql] without plugins,
    and the keys read when planning [B.generated] against it. *)
Lemma fragment_F_registry :
  buildFragmentRegistry Sample.getPossibleTypes Sample.print Sample.newBaseVisitor
    Sample.collectorOptions (Sample.presetOf [Sample.documentA; Sample.documentB] [])
    Sample.userSchema
  = Return [("F", {| filePath := "A.generated"; importNames := ["FFragment"];
                     onType := "User"; node := Sample.fragmentF |})].
Proof. reflexivity. Qed.

Lemma fragment_F_plain_plan (registry : FragmentRegistry) :
  buildFragmentRegistry Sample.getPossibleTypes Sample.print Sample.newBaseVisitor
    Sample.collectorOptions (Sample.presetOf [Sample.documentA; Sample.documentB] [])
    Sample.userSchema
  = Return registry ->
  plainPlan registry (Sample.extractExternalFragmentsInUse Sample.queryQ registry).
Proof.
  rewrite fragment_F_registry. intros H. injection H as <-. split.
  - intros n depth Hin. vm_compute in Hin. destruct Hin as [Hin|[]].
    injection Hin as <- _. reflexivity.
  - intros n e Hin Hget. vm_compute in Hin. destruct Hin as [Hin|[]].
    injection Hin as <-. vm_compute in Hget. injection Hget as <-. reflexivity.
Defined.

Lemma fragment_F_resolver :
  buildFragmentResolver Sample.getPossibleTypes Sample.print Sample.newBaseVisitor
    Sample.extractExternalFragmentsInUse Sample.collectorOptions
    (Sample.presetOf [Sample.documentA; Sample.documentB] []) Sample.userSchema
  = Return (resolveFragments Sample.extractExternalFragmentsInUse
              [("F", {| filePath := "A.generated"; importNames := ["FFragment"];
                        onType := "User"; node := Sample.fragmentF |})]
              "out" Sample.renderImportStatement).
Proof. reflexivity. Defined.

(** X10 on the resolver built from [A.graphql] and [B.graphql], planning
    [B.generated]. *)
Lemma resolver_references_come_from_definitions_witness :
  exists resolve reference,
    buildFragmentResolver Sample.getPossibleTypes Sample.print Sample.newBaseVisitor
      Sample.extractExternalFragmentsInUse Sample.collectorOptions
      (Sample.presetOf [Sample.documentA; Sample.documentB] []) Sample.userSchema
    = Return resolve /\
    (forall registry,
       buildFragmentRegistry Sample.getPossibleTypes Sample.print Sample.newBaseVisitor
         Sample.collectorOptions
         (Sample.presetOf [Sample.documentA; Sample.documentB] []) Sample.userSchema
       = Return registry ->
       plainPlan registry (Sample.extractExternalFragmentsInUse Sample.queryQ registry)) /\
    In reference (externalFragments (resolve "B.generated" Sample.queryQ)) /\
    name reference = name_value (loadedNode reference) /\
    loadedOnType reference = typeCondition_name_value (loadedNode reference) /\
    resolvesType Sample.userSchema (loadedNode reference).
Proof.
  eexists.
  exists {| level := 0; isExternal := true; name := "F";
            loadedOnType := "User"; loadedNode := Sample.fragmentF |}.
  assert (Hin : In {| level := 0; isExternal := true; name := "F";
                      loadedOnType := "User"; loadedNode := Sample.fragmentF |}
                   (externalFragments
                      (resolveFragments Sample.extractExternalFragmentsInUse
                         [("F", {| filePath := "A.generated";
                                   importNames := ["FFragment"];
                                   onType := "User";
                                   node := Sample.fragmentF |})]
                         "out" Sample.renderImportStatement
                         "B.generated" Sample.queryQ)))
    by (now left).
  split; [exact fragment_F_resolver|]. split; [exact fragment_F_plain_plan|].
  split; [exact Hin|].
  destruct (@resolver_references_come_from_definitions Sample.NamedType
              Sample.getPossibleTypes Sample.print Sample.newBaseVisitor
              Sample.extractExternalFragmentsInUse Sample.collectorOptions
              (Sample.presetOf [Sample.documentA; Sample.documentB] [])
              Sample.userSchema _ "B.generated" Sample.queryQ _
              fragment_F_resolver fragment_F_plain_plan Hin)
    as [_ [Hname [Hon [Hres _]]]].
  split; [exact Hname|]. split; [exact Hon | exact Hres].
Defined.

(** X11 on the resolver built from [A.graphql] and [B.graphql], planning
    [B.generated]. *)
Lemma resolver_imports_from_generated_paths_witness :
  exists resolve calls,
    buildFragmentResolver Sample.getPossibleTypes Sample.print Sample.newBaseVisitor
      Sample.extractExternalFragmentsInUse Sample.collectorOptions
      (Sample.presetOf [Sample.documentA; Sample.documentB] []) Sample.userSchema
    = Return resolve /\
    (forall registry,
       buildFragmentRegistry Sample.getPossibleTypes Sample.print Sample.newBaseVisitor
         Sample.collectorOptions
         (Sample.presetOf [Sample.documentA; Sample.documentB] []) Sample.userSchema
       = Return registry ->
       plainPlan registry (Sample.extractExternalFragmentsInUse Sample.queryQ registry)) /\
    Permutation (fragmentImportStatements (resolve "B.generated" Sample.queryQ))
      (map Sample.renderImportStatement calls) /\
    forall call, In call calls -> relativeOutputPath call = "B.generated".
Proof.
  destruct (@resolver_imports_from_generated_paths Sample.NamedType
              Sample.getPossibleTypes Sample.print Sample.newBaseVisitor
              Sample.extractExternalFragmentsInUse Sample.collectorOptions
              (Sample.presetOf [Sample.documentA; Sample.documentB] [])
              Sample.userSchema _ "B.generated" Sample.queryQ
              fragment_F_resolver fragment_F_plain_plan)
    as [calls [Hstatements Hcalls]].
  eexists. exists calls. split; [exact fragment_F_resolver|].
  split; [exact fragment_F_plain_plan|]. split; [exact Hstatements|].
  intros call Hcall. exact (proj1 (proj2 (Hcalls call Hcall))).
Defined.

(** X1 on two documents defining the same [Dup]: the build returns. *)
Lemma build_returns_iff_resolved_and_consistent_witness :
  plainFragmentNames (scanItems Sample.identicalDuplicates) /\
  ((exists registry, Sample.build Sample.identicalDuplicates [] = Return registry)
   <-> (forall d f, In (d, f) (scanItems Sample.identicalDuplicates) ->
          resolvesType Sample.userSchema f) /\
       (forall n, ~ conflictingName Sample.print
                      (scanItems Sample.identicalDuplicates) n)).
Proof.
  assert (Hplain : plainFragmentNames (scanItems Sample.identicalDuplicates)).
  { intros d f [H|[H|[]]]; injection H as _ <-; reflexivity. }
  split; [exact Hplain|].
  exact (@build_returns_iff_resolved_and_consistent Sample.NamedType
           Sample.getPossibleTypes Sample.print Sample.newBaseVisitor
           Sample.collectorOptions (Sample.presetOf Sample.identicalDuplicates [])
           Sample.userSchema Hplain).
Defined.

(** The keys read when planning [E] and [G], both exported by
    [A.generated], at depth 0. *)
Lemma shared_file_plain_plan :
  plainPlan
    [ ("E", {| filePath := "A.generated"; importNames := [];
               onType := "Unimplemented"; node := Sample.fragmentE |});
      ("G", {| filePath := "A.generated"; importNames := ["GFragment"];
               onType := "User"; node := Sample.fragmentG |}) ]
    [("E", 0); ("G", 0)]
  /\ noIndexPaths
       [ ("E", {| filePath := "A.generated"; importNames := [];
                  onType := "Unimplemented"; node := Sample.fragmentE |});
         ("G", {| filePath := "A.generated"; importNames := ["GFragment"];
                  onType := "User"; node := Sample.fragmentG |}) ]
       [("E", 0); ("G", 0)].
Proof.
  split; [split|].
  - intros n depth [H|[H|[]]]; injection H as <- _; reflexivity.
  - intros n e [H|[H|[]]] Hget; injection H as <-; vm_compute in Hget;
      injection Hget as <-; reflexivity.
  - intros n e [H|[H|[]]] Hget; injection H as <-; vm_compute in Hget;
      injection Hget as <-; reflexivity.
Defined.

(** X5 on [E] and [G] at depth 0: one statement, for [A.generated], with
    the name [GFragment]. *)
Lemma import_statements_in_first_discovery_order_witness :
  fragmentImportStatements
    (resolveFragments (fun _ _ => [("E", 0); ("G", 0)])
       [ ("E", {| filePath := "A.generated"; importNames := [];
                  onType := "Unimplemented"; node := Sample.fragmentE |});
         ("G", {| filePath := "A.generated"; importNames := ["GFragment"];
                  onType := "User"; node := Sample.fragmentG |}) ]
       "out" Sample.renderImportStatement "B.generated" Sample.queryEG)
  = ["import { GFragment } from './A.generated'"].
Proof.
  rewrite (@import_statements_in_first_discovery_order
             (fun _ _ => [("E", 0); ("G", 0)]) _ "out" Sample.renderImportStatement
             "B.generated" Sample.queryEG
             (proj1 shared_file_plain_plan) (proj2 shared_file_plain_plan)).
  reflexivity.
Defined.

(** X6 on [E] and [G] at depth 0: both are registered, and the plan has an
    import statement. *)
Lemma no_import_statement_iff_no_direct_fragment_witness :
  fragmentImportStatements
    (resolveFragments (fun _ _ => [("E", 0); ("G", 0)])
       [ ("E", {| filePath := "A.generated"; importNames := [];
                  onType := "Unimplemented"; node := Sample.fragmentE |});
         ("G", {| filePath := "A.generated"; importNames := ["GFragment"];
                  onType := "User"; node := Sample.fragmentG |}) ]
       "out" Sample.renderImportStatement "B.generated" Sample.queryEG)
  <> [].
Proof.
  intros Hnil.
  pose proof (proj1 (@no_import_statement_iff_no_direct_fragment
                       (fun _ _ => [("E", 0); ("G", 0)]) _ "out"
                       Sample.renderImportStatement "B.generated" Sample.queryEG
                       (proj1 shared_file_plain_plan)) Hnil) as Hnone.
  specialize (Hnone "G" (or_intror (or_introl eq_refl))). discriminate Hnone.
Defined.

(** X7 on a depth map whose only name, [Ghost], is not registered: the plan
    has no external fragment. *)
Lemma no_external_fragment_iff_nothing_registered_witness :
  externalFragments
    (resolveFragments (fun _ _ => [("Ghost", 0)])
       [ ("E", {| filePath := "A.generated"; importNames := [];
                  onType := "Unimplemented"; node := Sample.fragmentE |}) ]
       "out" Sample.renderImportStatement "B.generated" Sample.queryEG)
  = [].
Proof.
  assert (Hplain : plainPlan
            [ ("E", {| filePath := "A.generated"; importNames := [];
                       onType := "Unimplemented"; node := Sample.fragmentE |}) ]
            [("Ghost", 0)]).
  { split.
    - intros n depth [H|[]]. injection H as <- _. reflexivity.
    - intros n e [H|[]] Hget. injection H as <-. discriminate Hget. }
  apply (proj2 (@no_external_fragment_iff_nothing_registered
                  (fun _ _ => [("Ghost", 0)])
                  [ ("E", {| filePath := "A.generated"; importNames := [];
                             onType := "Unimplemented"; node := Sample.fragmentE |}) ]
                  "out" Sample.renderImportStatement "B.generated" Sample.queryEG
                  Hplain)).
  intros n depth [H|[]]. injection H as <- _. reflexivity.
Defined.
